(** * opencode-ask-user: the file-mailbox handshake between the [ask_user]
    tool (the Requester, [ask_user.ts]) and the interactive helper
    [ask-user-cli.ts] (the Responder).

    The two programs share one directory [~/.opencode/ask_user].  We model the
    directory as a finite map from file names to file contents, the
    synchronous [fs] calls of both programs as primitives of a state and
    error monad, and every observable action (a file-system call, a question
    shown to the human) as an entry of an append-only trace.  Activity of the
    other process between two polling ticks is an arbitrary function on the
    mailbox, supplied by a schedule. *)

From Stdlib Require Import ZArith Ascii String.
From stdpp Require Import base gmap sets list strings sorting pretty.

Open Scope string_scope.

(* ------------------------------------------------------------------ *)
(** ** Records (the [Question] and [Response] interfaces) *)

Record Question := {
  q_id : string;
  q_question : string;
  q_title : option string;
  q_sessionID : string;
  q_messageID : string;
  q_timestamp : Z
}.

Record Response := {
  r_id : string;
  r_response : string;
  r_responded : bool;
  r_timestamp : Z
}.

(** A JSON document as the two programs write them. *)
Inductive doc :=
| JQuestion (q : Question)
| JResponse (r : Response).

(** The contents of a file: a complete document, or bytes that
    [JSON.parse] rejects (a file read while still being written). *)
Inductive contents :=
| CDoc (d : doc)
| CPartial.

(** The [id] field of a parsed document. *)
Definition doc_id (d : doc) : string :=
  match d with JQuestion q => q_id q | JResponse r => r_id r end.

(** [responseData.responded] (truthiness; absent on a question object). *)
Definition doc_responded (d : doc) : bool :=
  match d with JResponse r => r_responded r | JQuestion _ => false end.

(** [responseData.response]. *)
Definition doc_response (d : doc) : string :=
  match d with JResponse r => r_response r | JQuestion _ => "" end.

(** The mailbox directory.  [mb_readdir_fails] and [mb_write_fails] stand for
    I/O faults of the directory (permission denied, disk full). *)
Record mailbox := {
  mb_dir : bool;
  mb_files : gmap string contents;
  mb_readdir_fails : bool;
  mb_write_fails : bool
}.

(** Observable actions. *)
Inductive op :=
| OExists (p : string)
| ORead (p : string)
| OUnlink (p : string)
| OWrite (p : string)
| OMkdir
| OReaddir
| OPresent (id : string).

(** Thrown errors. *)
Inductive err :=
| ENOENT (p : string)
| EIO
| ESyntax
| ETypeError.

(** Program state: the shared mailbox, the trace, and the process-local state
    of the Responder ([processedQuestions] and the lines still to be typed on
    stdin) and the clock. *)
Record st := {
  st_mb : mailbox;
  st_tr : list op;
  st_seen : gset string;
  st_input : list string;
  st_now : Z
}.

(** A computation ends normally, throws, or waits for stdin input beyond
    what the modelled input stream holds. *)
Inductive res (A : Type) :=
| Ok (a : A)
| Err (e : err)
| Wait.
Arguments Ok {A} a.
Arguments Err {A} e.
Arguments Wait {A}.

Definition M (A : Type) : Type := st -> res A * st.

Definition ret {A} (a : A) : M A := fun s => (Ok a, s).
Definition bind {A B} (m : M A) (f : A -> M B) : M B := fun s =>
  match m s with
  | (Ok a, s') => f a s'
  | (Err e, s') => (Err e, s')
  | (Wait, s') => (Wait, s')
  end.

Notation "'let*' x ':=' m 'in' k" := (bind m (fun x => k))
  (at level 200, x binder, m at level 100, k at level 200).

Definition throw {A} (e : err) : M A := fun s => (Err e, s).

(** [try { m } catch (e) { h e }]. *)
Definition catch {A} (m : M A) (h : err -> M A) : M A := fun s =>
  match m s with
  | (Err e, s') => h e s'
  | r => r
  end.

(* ------------------------------------------------------------------ *)
(** ** State primitives *)

Definition set_mb (m : mailbox) (s : st) : st :=
  {| st_mb := m; st_tr := st_tr s; st_seen := st_seen s;
     st_input := st_input s; st_now := st_now s |}.

Definition log (o : op) (s : st) : st :=
  {| st_mb := st_mb s; st_tr := (st_tr s ++ [o])%list; st_seen := st_seen s;
     st_input := st_input s; st_now := st_now s |}.

Definition set_files (f : gmap string contents) (m : mailbox) : mailbox :=
  {| mb_dir := mb_dir m; mb_files := f; mb_readdir_fails := mb_readdir_fails m;
     mb_write_fails := mb_write_fails m |}.

(** Activity of the other process, between two ticks: not logged. *)
Definition modify_mb (f : mailbox -> mailbox) : M unit := fun s =>
  (Ok tt, set_mb (f (st_mb s)) s).

(* ------------------------------------------------------------------ *)
(** ** The [fs] calls used by both programs *)

Definition existsSync (p : string) : M bool := fun s =>
  (Ok (bool_decide (is_Some (mb_files (st_mb s) !! p))), log (OExists p) s).

(** [fs.unlinkSync]: of its failures only [ENOENT] (the file is absent) is
    modelled; permission and read-only errors ([EACCES], [EPERM], [EROFS]) are
    not, so the properties below hold on a mailbox where deleting an existing
    file succeeds. *)
Definition unlinkSync (p : string) : M unit := fun s =>
  let s := log (OUnlink p) s in
  match mb_files (st_mb s) !! p with
  | Some _ => (Ok tt, set_mb (set_files (delete p (mb_files (st_mb s))) (st_mb s)) s)
  | None => (Err (ENOENT p), s)
  end.

Definition readFileSync (p : string) : M contents := fun s =>
  let s := log (ORead p) s in
  match mb_files (st_mb s) !! p with
  | Some c => (Ok c, s)
  | None => (Err (ENOENT p), s)
  end.

Definition writeFileSync (p : string) (c : contents) : M unit := fun s =>
  let s := log (OWrite p) s in
  if mb_write_fails (st_mb s) then (Err EIO, s)
  else (Ok tt, set_mb (set_files (<[p:=c]> (mb_files (st_mb s))) (st_mb s)) s).

Definition readdirSync : M (list string) := fun s =>
  let s := log OReaddir s in
  if mb_readdir_fails (st_mb s) then (Err EIO, s)
  else (Ok (map fst (map_to_list (mb_files (st_mb s)))), s).

Definition dirExists : M bool := fun s => (Ok (mb_dir (st_mb s)), s).

(** [fs.mkdirSync(IPC_DIR, { recursive: true })] where it succeeds; its
    failures ([ENOTDIR], [EACCES], ...) are not modelled. *)
Definition mkdirSync : M unit := fun s =>
  let s := log OMkdir s in
  let m := st_mb s in
  (Ok tt, set_mb {| mb_dir := true; mb_files := mb_files m;
                    mb_readdir_fails := mb_readdir_fails m;
                    mb_write_fails := mb_write_fails m |} s).

Definition json_parse (c : contents) : M doc :=
  match c with CDoc d => ret d | CPartial => throw ESyntax end.

Definition now : M Z := fun s => (Ok (st_now s), s).

(** [ensureIpcDir] (identical in both programs). *)
Definition ensureIpcDir : M unit :=
  let* b := dirExists in if b then ret tt else mkdirSync.

(** File names: [question_<id>.json] and [response_<id>.json]. *)
Definition question_file (id : string) : string := String.append "question_" (String.append id ".json").
Definition response_file (id : string) : string := String.append "response_" (String.append id ".json").

(* ------------------------------------------------------------------ *)
(** ** The Requester: [execute] of [ask_user.ts] *)

(** The object passed to [JSON.stringify] on return; [reason] is the
    optional property. *)
Record outcome := {
  o_responded : bool;
  o_response : string;
  o_cancelled : bool;
  o_reason : option string
}.

Definition aborted_outcome : outcome :=
  {| o_responded := false; o_response := ""; o_cancelled := true;
     o_reason := Some "Agent aborted the request" |}.

Definition timeout_outcome (timeoutSec : N) : outcome :=
  {| o_responded := false; o_response := ""; o_cancelled := true;
     o_reason := Some (String.append "Timeout after "
                         (String.append (pretty timeoutSec)
                            " seconds waiting for user response")) |}.

Definition user_cancelled_outcome : outcome :=
  {| o_responded := false; o_response := ""; o_cancelled := true;
     o_reason := Some "User cancelled the request" |}.

Definition answered_outcome (text : string) : outcome :=
  {| o_responded := true; o_response := text; o_cancelled := false;
     o_reason := None |}.

(** [if (fs.existsSync(p)) { fs.unlinkSync(p) }] *)
Definition unlink_if_exists (p : string) : M unit :=
  let* b := existsSync p in if b then unlinkSync p else ret tt.

(** Lines 132-136: clean up after a parsed reply.  The question file is
    removed behind an [existsSync] guard, the reply file unconditionally. *)
Definition reply_cleanup (questionFile responseFile : string) : M unit :=
  let* _ := unlink_if_exists questionFile in
  unlinkSync responseFile.

(** Lines 127-151: the body of the inner [try]. *)
Definition consume_reply (questionFile responseFile : string) : M outcome :=
  let* c := readFileSync responseFile in
  let* responseData := json_parse c in
  let* _ := reply_cleanup questionFile responseFile in
  if doc_responded responseData
  then ret (answered_outcome (doc_response responseData))
  else ret user_cancelled_outcome.

Inductive tick_res :=
| Done (o : outcome)
| Next.

(** Lines 125-155: look for the reply; a failure inside the inner [try]
    means "not yet". *)
Definition check_reply (questionFile responseFile : string) : M tick_res :=
  let* b := existsSync responseFile in
  if b then
    catch (let* o := consume_reply questionFile responseFile in ret (Done o))
          (fun _ => ret Next)
  else ret Next.

(** One iteration of the polling loop (lines 97-155), up to the sleep.
    [aborted] is [context.abort.aborted] and [elapsed] is
    [Date.now() - startTime] when the iteration runs; a JS tick runs to
    completion, so neither changes within it. *)
Definition poll_tick (aborted : bool) (elapsed : Z) (timeoutSec : N)
    (questionFile responseFile : string) : M tick_res :=
  if aborted then
    let* _ := unlink_if_exists questionFile in ret (Done aborted_outcome)
  else if bool_decide (elapsed > Z.of_N timeoutSec * 1000)%Z then
    let* _ := unlink_if_exists questionFile in ret (Done (timeout_outcome timeoutSec))
  else check_reply questionFile responseFile.

(** What holds when a tick starts: the abort flag, the elapsed time, and the
    change the other process made to the mailbox during the preceding sleep. *)
Record tick_env := {
  te_aborted : bool;
  te_elapsed : Z;
  te_other : mailbox -> mailbox
}.

(** The [while (true)] loop over a finite schedule of ticks; [None] means the
    call is still waiting when the schedule ends. *)
Fixpoint poll_loop (timeoutSec : N) (questionFile responseFile : string)
    (sched : list tick_env) : M (option outcome) :=
  match sched with
  | [] => ret None
  | e :: sched' =>
      let* _ := modify_mb (te_other e) in
      let* r := poll_tick (te_aborted e) (te_elapsed e) timeoutSec
                  questionFile responseFile in
      match r with
      | Done o => ret (Some o)
      | Next => poll_loop timeoutSec questionFile responseFile sched'
      end
  end.

(** [execute]: [questionId] is the freshly generated id, [timeout] the
    optional argument. *)
Definition execute (questionId question : string) (title : option string)
    (timeout : option N) (sessionID messageID : string)
    (sched : list tick_env) : M (option outcome) :=
  let* _ := ensureIpcDir in
  let timeoutSec := default 300%N timeout in
  let* t := now in
  let questionData :=
    {| q_id := questionId; q_question := question; q_title := title;
       q_sessionID := sessionID; q_messageID := messageID; q_timestamp := t |} in
  let questionFile := question_file questionId in
  let responseFile := response_file questionId in
  let* _ := writeFileSync questionFile (CDoc (JQuestion questionData)) in
  catch (poll_loop timeoutSec questionFile responseFile sched)
        (fun error =>
           let* _ := unlink_if_exists questionFile in
           let* _ := unlink_if_exists responseFile in
           throw error).

(* ------------------------------------------------------------------ *)
(** ** String operations used by the Responder (on ASCII text) *)

(** [String.prototype.endsWith]. *)
Definition ends_with (suffix s : string) : bool :=
  let n := String.length s in
  let m := String.length suffix in
  Nat.leb m n && String.eqb (String.substring (n - m) m s) suffix.

(** The JS [WhiteSpace] and [LineTerminator] characters of ASCII. *)
Definition is_js_space (c : ascii) : bool :=
  let n := nat_of_ascii c in
  (Nat.eqb n 32 || Nat.eqb n 9 || Nat.eqb n 10 || Nat.eqb n 11 ||
   Nat.eqb n 12 || Nat.eqb n 13)%bool.

Fixpoint trim_start (s : string) : string :=
  match s with
  | EmptyString => EmptyString
  | String c s' => if is_js_space c then trim_start s' else s
  end.

(** [String.prototype.trim]. *)
Definition trim (s : string) : string :=
  String.rev (trim_start (String.rev (trim_start s))).

Definition ascii_lower (c : ascii) : ascii :=
  let n := nat_of_ascii c in
  if (Nat.leb 65 n && Nat.leb n 90)%bool then ascii_of_nat (n + 32) else c.

(** [String.prototype.toLowerCase]. *)
Fixpoint to_lower (s : string) : string :=
  match s with
  | EmptyString => EmptyString
  | String c s' => String (ascii_lower c) (to_lower s')
  end.

(* ------------------------------------------------------------------ *)
(** ** The Responder: [ask-user-cli.ts] *)

(** [getPendingQuestions]' file filter. *)
Definition is_question_name (f : string) : bool :=
  String.prefix "question_" f && ends_with ".json" f.

(** The [for] loop of [getPendingQuestions]: read and parse each file,
    skipping the ones that fail. *)
Fixpoint read_questions (files : list string) : M (list doc) :=
  match files with
  | [] => ret []
  | f :: files' =>
      let* d := catch (let* c := readFileSync f in
                       let* data := json_parse c in ret [data])
                      (fun _ => ret []) in
      let* ds := read_questions files' in
      ret (d ++ ds)%list
  end.

(** [getPendingQuestions]; [.sort()] orders the names by code units. *)
Definition getPendingQuestions : M (list doc) :=
  let* _ := ensureIpcDir in
  let* names := readdirSync in
  read_questions (merge_sort String.le (List.filter is_question_name names)).

(** [writeResponse]. *)
Definition writeResponse (questionId response : string) (responded : bool) : M unit :=
  let* t := now in
  writeFileSync (response_file questionId)
    (CDoc (JResponse {| r_id := questionId; r_response := response;
                        r_responded := responded; r_timestamp := t |})).

(** The [rl.question] callback loop of [promptUser] (lines 157-188), over the
    lines typed on stdin.  [Some (lines, rest)] when the submit branch is
    reached, with [rest] the input not consumed; [None] when the input runs
    out first (the prompt keeps waiting). *)
Fixpoint collect (lines : list string) (emptyLineCount : nat) (input : list string)
    : option (list string * list string) :=
  match input with
  | [] => None
  | line :: rest =>
      if String.eqb line "" then
        let emptyLineCount := S emptyLineCount in
        if (Nat.leb 1 emptyLineCount && Nat.ltb 0 (length lines))%bool
        then Some (lines, rest)
        else collect lines emptyLineCount rest
      else collect (lines ++ [line])%list 0 rest
  end.

(** The text submitted for a collected list of lines. *)
Definition joined_response (lines : list string) : string :=
  trim (String.concat (String "010" EmptyString) lines).

Definition take_input : M (option (list string * list string)) := fun s =>
  (Ok (collect [] 0 (st_input s)), s).

Definition set_input (i : list string) : M unit := fun s =>
  (Ok tt, {| st_mb := st_mb s; st_tr := st_tr s; st_seen := st_seen s;
             st_input := i; st_now := st_now s |}).

(** [promptUser]. *)
Definition promptUser (question : doc) : M unit :=
  let* r := take_input in
  match r with
  | None => let* _ := set_input [] in (fun s => (Wait, s))
  | Some (lines, rest) =>
      let* _ := set_input rest in
      let response := joined_response lines in
      if String.eqb (to_lower response) "cancel"
      then writeResponse (doc_id question) "" false
      else writeResponse (doc_id question) response true
  end.

(** [printQuestion]: shows the question to the human; a [question_] file
    holding some other object makes [question.question.split] throw. *)
Definition printQuestion (question : doc) : M unit :=
  match question with
  | JQuestion q => fun s => (Ok tt, log (OPresent (q_id q)) s)
  | JResponse _ => throw ETypeError
  end.

Definition has_processed (id : string) : M bool := fun s =>
  (Ok (bool_decide (id ∈ st_seen s)), s).

Definition add_processed (id : string) : M unit := fun s =>
  (Ok tt, {| st_mb := st_mb s; st_tr := st_tr s; st_seen := {[id]} ∪ st_seen s;
             st_input := st_input s; st_now := st_now s |}).

(** The [for] loop of [main] (lines 213-229). *)
Fixpoint handle_questions (questions : list doc) : M unit :=
  match questions with
  | [] => ret tt
  | question :: questions' =>
      let* seen := has_processed (doc_id question) in
      if seen then handle_questions questions'
      else
        let* _ := add_processed (doc_id question) in
        let* _ := printQuestion question in
        let* _ := promptUser question in
        handle_questions questions'
  end.

(** One iteration of [while (true)] in [main], up to the sleep. *)
Definition responder_tick : M unit :=
  let* questions := getPendingQuestions in
  handle_questions questions.

(** The [while (true)] loop over a finite schedule; each entry is what the
    other process does to the mailbox during the preceding sleep. *)
Fixpoint responder_loop (sched : list (mailbox -> mailbox)) : M unit :=
  match sched with
  | [] => ret tt
  | other :: sched' =>
      let* _ := modify_mb other in
      let* _ := responder_tick in
      responder_loop sched'
  end.

Inductive proc_status :=
| Running
| Exited (code : Z)
| Blocked.

(** The process: an exception out of the loop ends it with status 1, through
    [main().catch(...)] for a rejection of [main] and through the runtime's
    uncaught-exception handling for one thrown in the [readline] callback. *)
Definition run_responder (sched : list (mailbox -> mailbox)) (s : st) : proc_status * st :=
  match responder_loop sched s with
  | (Ok _, s') => (Running, s')
  | (Err _, s') => (Exited 1, s')
  | (Wait, s') => (Blocked, s')
  end.

(* ------------------------------------------------------------------ *)
(** ** Further code of both programs *)

(** [generateQuestionId] of [ask_user.ts]: [timestamp] is [Date.now()] and
    [random] is [Math.random().toString(36).substring(2, 9)]; a number is
    interpolated as its decimal digits. *)
Definition generateQuestionId (timestamp : N) (random : string) : string :=
  String.append "q_" (String.append (pretty timestamp) (String.append "_" random)).

(** [String.prototype.split] with a one-character separator. *)
Fixpoint split (sep : ascii) (s : string) : list string :=
  match s with
  | EmptyString => [EmptyString]
  | String c s' =>
      let pieces := split sep s' in
      if Ascii.eqb c sep then EmptyString :: pieces
      else match pieces with
           | p :: ps => String c p :: ps
           | [] => [String c EmptyString]
           end
  end.

(** [String.prototype.repeat]. *)
Fixpoint repeat_str (n : nat) (s : string) : string :=
  match n with
  | O => EmptyString
  | S n' => String.append s (repeat_str n' s)
  end.

(** The ANSI codes of [colors]. *)
Definition ansi (code : string) : string :=
  String (ascii_of_nat 27) (String.append "[" (String.append code "m")).
Definition c_reset := ansi "0".
Definition c_bold := ansi "1".
Definition c_dim := ansi "2".
Definition c_cyan := ansi "36".
Definition c_yellow := ansi "33".

(** The line [printLine] logs. *)
Definition printLine (char : string) (width : nat) : string :=
  String.append c_dim (String.append (repeat_str width char) c_reset).

(** Lines 131-135 of [printQuestion]: the question text, line by line,
    indented by five spaces. *)
Definition printQuestion_body (q : Question) : list string :=
  map (fun line => String.append "     " line) (split "010"%char (q_question q)).

(** The lines [printQuestion] logs, one string per [console.log] call
    ([console.log()] logs an empty line); [formatTime] is
    [new Date(timestamp).toLocaleTimeString()], which depends on the locale. *)
Definition printQuestion_lines (formatTime : Z -> string) (q : Question) : list string :=
  ([EmptyString; printLine "═" 60; EmptyString] ++
   match q_title q with
   | Some t =>
       if String.eqb t EmptyString then []
       else [String.append c_bold (String.append c_yellow
               (String.append "  📋 " (String.append t c_reset))); EmptyString]
   | None => []
   end ++
   [String.append c_bold (String.append c_cyan (String.append "  ❓ Question:" c_reset));
    EmptyString] ++
   printQuestion_body q ++
   [EmptyString;
    String.append c_dim (String.append "  Session: "
      (String.append (String.substring 0 12 (q_sessionID q))
        (String.append "... | Time: " (String.append (formatTime (q_timestamp q)) c_reset))));
    printLine "─" 60; EmptyString])%list.

(** A process at start-up: empty trace, empty [processedQuestions]. *)
Definition start_st (m : mailbox) (input : list string) : st :=
  {| st_mb := m; st_tr := []; st_seen := ∅; st_input := input; st_now := 0 |}.

(** Sample data used to run the properties below on concrete states. *)
Definition ex_q : Question :=
  {| q_id := "q1"; q_question := "Proceed?"; q_title := None;
     q_sessionID := "ses1"; q_messageID := "msg1"; q_timestamp := 0 |}.

Definition ex_reply : Response :=
  {| r_id := "q1"; r_response := "yes"; r_responded := true; r_timestamp := 0 |}.

(** The mailbox just after the Requester wrote its request. *)
Definition ex_mb : mailbox :=
  {| mb_dir := true;
     mb_files := {[ question_file "q1" := CDoc (JQuestion ex_q) ]};
     mb_readdir_fails := false; mb_write_fails := false |}.

(** The same mailbox with the reply in place. *)
Definition ex_mb_replied : mailbox :=
  {| mb_dir := true;
     mb_files := <[ response_file "q1" := CDoc (JResponse ex_reply) ]> (mb_files ex_mb);
     mb_readdir_fails := false; mb_write_fails := false |}.

(** The same mailbox with a reply still being written. *)
Definition ex_mb_partial : mailbox :=
  {| mb_dir := true;
     mb_files := <[ response_file "q1" := CPartial ]> (mb_files ex_mb);
     mb_readdir_fails := false; mb_write_fails := false |}.

(** A tick of the Requester with nothing happening in between. *)
Definition ex_wait_tick : tick_env :=
  {| te_aborted := false; te_elapsed := 0; te_other := fun m => m |}.

(** A tick at which the signal is aborted. *)
Definition ex_abort_tick : tick_env :=
  {| te_aborted := true; te_elapsed := 0; te_other := fun m => m |}.

(** The Responder writes its answer [ex_reply] to [q1] during the sleep. *)
Definition ex_put_reply (m : mailbox) : mailbox :=
  set_files (<[ response_file "q1" := CDoc (JResponse ex_reply) ]> (mb_files m)) m.

(** Ticks after which the reply is in the mailbox: one at which the signal is
    aborted, one exactly at the default deadline, one just past it. *)
Definition ex_abort_reply_tick : tick_env :=
  {| te_aborted := true; te_elapsed := 0; te_other := ex_put_reply |}.
Definition ex_deadline_reply_tick : tick_env :=
  {| te_aborted := false; te_elapsed := 300000; te_other := ex_put_reply |}.
Definition ex_late_reply_tick : tick_env :=
  {| te_aborted := false; te_elapsed := 300001; te_other := ex_put_reply |}.

(** The directory listing starts failing. *)
Definition ex_break_readdir (m : mailbox) : mailbox :=
  {| mb_dir := mb_dir m; mb_files := mb_files m;
     mb_readdir_fails := true; mb_write_fails := mb_write_fails m |}.

(* ================================================================== *)
(** * Properties *)

(* ------------------------------------------------------------------ *)
(** ** Basic facts about the Requester's primitives *)

Lemma unlink_if_exists_spec (p : string) (s : st) :
  unlink_if_exists p s =
    (Ok tt,
     {| st_mb := set_files (delete p (mb_files (st_mb s))) (st_mb s);
        st_tr := (st_tr s ++ OExists p ::
                  (if bool_decide (is_Some (mb_files (st_mb s) !! p))
                   then [OUnlink p] else []))%list;
        st_seen := st_seen s; st_input := st_input s; st_now := st_now s |}).
Proof.
  destruct s as [[d f rf wf] tr seen inp t]; cbn.
  unfold unlink_if_exists, bind, existsSync, unlinkSync, log, set_mb, set_files; cbn.
  destruct (f !! p) eqn:Hp; cbn; rewrite ?Hp; cbn.
  - rewrite <- app_assoc. reflexivity.
  - rewrite delete_id by done. rewrite ?app_nil_r. reflexivity.
Qed.

(** The reply branch of a tick, when the reply file holds [c]. *)
Lemma poll_tick_reply (elapsed : Z) (timeoutSec : N) (qf rf : string) (s : st)
    (c : contents) :
  (elapsed <= Z.of_N timeoutSec * 1000)%Z ->
  mb_files (st_mb s) !! rf = Some c ->
  poll_tick false elapsed timeoutSec qf rf s =
    catch (let* o := consume_reply qf rf in ret (Done o)) (fun _ => ret Next)
          (log (OExists rf) s).
Proof.
  intros Hel Hrf. unfold poll_tick.
  rewrite bool_decide_false by lia.
  unfold check_reply, bind at 1, existsSync. rewrite Hrf.
  rewrite bool_decide_true by eauto. reflexivity.
Qed.

Lemma question_response_file_ne (id : string) :
  question_file id <> response_file id.
Proof. unfold question_file, response_file. intros H. inversion H. Qed.

(** A tick that finds a parsed reply [d] consumes it. *)
Lemma poll_tick_consume (elapsed : Z) (timeoutSec : N) (qf rf : string) (s : st)
    (d : doc) :
  qf <> rf ->
  (elapsed <= Z.of_N timeoutSec * 1000)%Z ->
  mb_files (st_mb s) !! rf = Some (CDoc d) ->
  poll_tick false elapsed timeoutSec qf rf s =
    (Ok (Done (if doc_responded d then answered_outcome (doc_response d)
               else user_cancelled_outcome)),
     log (OUnlink rf)
       {| st_mb := set_files (delete rf (delete qf (mb_files (st_mb s)))) (st_mb s);
          st_tr := (st_tr s ++ [OExists rf] ++ [ORead rf] ++ OExists qf ::
                    (if bool_decide (is_Some (mb_files (st_mb s) !! qf))
                     then [OUnlink qf] else []))%list;
          st_seen := st_seen s; st_input := st_input s; st_now := st_now s |}).
Proof.
  intros Hne Hel Hrf. rewrite (poll_tick_reply _ _ _ _ _ (CDoc d)) by assumption.
  unfold catch, consume_reply, reply_cleanup, bind, ret, readFileSync at 1.
  cbn [log st_mb]. rewrite Hrf. cbn [json_parse].
  unfold ret. rewrite unlink_if_exists_spec.
  unfold unlinkSync. cbn [st_mb log set_files mb_files st_tr st_seen st_input st_now].
  rewrite lookup_delete_ne by congruence. rewrite Hrf.
  destruct s as [[dd f rdf wrf] tr seen inp t]; cbn.
  rewrite <- !app_assoc. cbn.
  destruct (doc_responded d); reflexivity.
Qed.

(** Postconditions on the values a computation returns normally. *)
Definition returns_in {A} (P : A -> Prop) (m : M A) : Prop :=
  forall s a s', m s = (Ok a, s') -> P a.

Lemma returns_in_ret {A} (P : A -> Prop) (a : A) : P a -> returns_in P (ret a).
Proof. intros HP s a' s' H. inversion H; subst; exact HP. Qed.

Lemma returns_in_bind {A B} (P : B -> Prop) (m : M A) (f : A -> M B) :
  (forall a, returns_in P (f a)) -> returns_in P (bind m f).
Proof.
  intros Hf s b s' H. unfold bind in H.
  destruct (m s) as [[a| |] s1]; try discriminate. eapply Hf; eassumption.
Qed.

Lemma returns_in_catch {A} (P : A -> Prop) (m : M A) (h : err -> M A) :
  returns_in P m -> (forall e, returns_in P (h e)) -> returns_in P (catch m h).
Proof.
  intros Hm Hh s a s' H. unfold catch in H.
  destruct (m s) as [[a1|e|] s1] eqn:E; try discriminate.
  - inversion H; subst. eapply Hm; eassumption.
  - eapply Hh; eassumption.
Qed.

Lemma returns_in_throw {A} (P : A -> Prop) (e : err) : returns_in P (throw e).
Proof. intros s a s' H. discriminate. Qed.


Lemma consume_reply_outcome (qf rf : string) :
  returns_in (fun o => (exists t, o = answered_outcome t) \/ o = user_cancelled_outcome)
    (consume_reply qf rf).
Proof.
  unfold consume_reply. apply returns_in_bind; intros c.
  apply returns_in_bind; intros d. apply returns_in_bind; intros _.
  destruct (doc_responded d); apply returns_in_ret; eauto.
Qed.

(** The four objects a tick can return. *)
Definition requester_outcome (timeoutSec : N) (o : outcome) : Prop :=
  o = aborted_outcome \/ o = timeout_outcome timeoutSec \/
  (exists t, o = answered_outcome t) \/ o = user_cancelled_outcome.

Lemma check_reply_outcome (qf rf : string) :
  returns_in (fun r => r = Next \/ exists o, r = Done o /\
                 ((exists t, o = answered_outcome t) \/ o = user_cancelled_outcome))
    (check_reply qf rf).
Proof.
  unfold check_reply. apply returns_in_bind; intros b.
  destruct b; [|apply returns_in_ret; auto].
  apply returns_in_catch; [|intros _; apply returns_in_ret; auto].
  intros s o s' H. unfold bind in H.
  destruct (consume_reply qf rf s) as [[o1| |] s1] eqn:E; try discriminate.
  injection H as <- <-. right. exists o1. split; [reflexivity|].
  exact (consume_reply_outcome qf rf s o1 s1 E).
Qed.

Lemma poll_tick_outcome (aborted : bool) (elapsed : Z) (timeoutSec : N) (qf rf : string) :
  returns_in (fun r => r = Next \/ exists o, r = Done o /\ requester_outcome timeoutSec o)
    (poll_tick aborted elapsed timeoutSec qf rf).
Proof.
  unfold poll_tick, requester_outcome.
  destruct aborted; [|destruct (bool_decide _)].
  - apply returns_in_bind; intros _. apply returns_in_ret. eauto 10.
  - apply returns_in_bind; intros _. apply returns_in_ret. eauto 10.
  - intros s r s' H.
    destruct (check_reply_outcome qf rf s r s' H) as [->|[o [-> Ho]]]; [auto|].
    right. exists o. split; [reflexivity|]. destruct Ho as [[t ->]| ->]; eauto 10.
Qed.

(** One step of the polling loop. *)
Lemma poll_loop_cons (timeoutSec : N) (qf rf : string) (e : tick_env)
    (sched : list tick_env) (s : st) :
  poll_loop timeoutSec qf rf (e :: sched) s =
    match poll_tick (te_aborted e) (te_elapsed e) timeoutSec qf rf
            (set_mb (te_other e (st_mb s)) s) with
    | (Ok (Done o), s') => (Ok (Some o), s')
    | (Ok Next, s') => poll_loop timeoutSec qf rf sched s'
    | (Err er, s') => (Err er, s')
    | (Wait, s') => (Wait, s')
    end.
Proof.
  cbn [poll_loop]. unfold bind at 1, modify_mb.
  unfold bind. destruct (poll_tick _ _ _ _ _ _) as [[[o|]| |] s'];
  reflexivity.
Qed.

Lemma poll_loop_app (timeoutSec : N) (qf rf : string) (l1 l2 : list tick_env) (s : st) :
  poll_loop timeoutSec qf rf (l1 ++ l2) s =
    match poll_loop timeoutSec qf rf l1 s with
    | (Ok None, s') => poll_loop timeoutSec qf rf l2 s'
    | r => r
    end.
Proof.
  revert s. induction l1 as [|e l1 IH]; intros s; [reflexivity|].
  rewrite <- app_comm_cons, !poll_loop_cons.
  destruct (poll_tick _ _ _ _ _ _) as [[[o|]| |] s']; auto.
Qed.

(* ------------------------------------------------------------------ *)
(** ** Requester claims *)

(** C8: a reply file that does not parse is left alone.  The tick that reads
    it deletes nothing, does not return, and only logs the existence check and
    the read; the mailbox is unchanged.  Two such ticks in a row read the same
    reply file twice. *)
Theorem unparsable_reply_not_consumed (elapsed : Z) (timeoutSec : N)
    (qf rf : string) (s : st) :
  (elapsed <= Z.of_N timeoutSec * 1000)%Z ->
  mb_files (st_mb s) !! rf = Some CPartial ->
  poll_tick false elapsed timeoutSec qf rf s =
    (Ok Next, log (ORead rf) (log (OExists rf) s)) /\
  forall e1 e2 : tick_env,
    te_aborted e1 = false -> te_aborted e2 = false ->
    (te_elapsed e1 <= Z.of_N timeoutSec * 1000)%Z ->
    (te_elapsed e2 <= Z.of_N timeoutSec * 1000)%Z ->
    te_other e1 = (fun m => m) -> te_other e2 = (fun m => m) ->
    poll_loop timeoutSec qf rf [e1; e2] s =
      (Ok None, log (ORead rf) (log (OExists rf)
                  (log (ORead rf) (log (OExists rf) s)))).
Proof.
  intros Hel Hrf.
  assert (Htick : forall el t, (el <= Z.of_N timeoutSec * 1000)%Z ->
            mb_files (st_mb t) !! rf = Some CPartial ->
            poll_tick false el timeoutSec qf rf t =
              (Ok Next, log (ORead rf) (log (OExists rf) t))).
  { intros el t Hel' Ht. rewrite (poll_tick_reply _ _ _ _ _ CPartial) by assumption.
    unfold catch, consume_reply, bind, readFileSync. cbn [log st_mb]. rewrite Ht.
    reflexivity. }
  split; [apply Htick; assumption|].
  intros [a1 el1 o1] [a2 el2 o2] Ha1 Ha2 H1 H2 Ho1 Ho2.
  cbn [te_aborted te_elapsed te_other] in *; subst.
  assert (Hs : forall t : st, set_mb (st_mb t) t = t) by (intros []; reflexivity).
  rewrite poll_loop_cons; cbn [te_aborted te_elapsed te_other]. rewrite Hs, Htick by assumption.
  rewrite poll_loop_cons; cbn [te_aborted te_elapsed te_other]. rewrite Hs, Htick by assumption.
  reflexivity.
Qed.

(** C10: a tick that gives up (the abort outcome or the timeout outcome)
    deletes the question file and nothing else; the reply file, if present,
    stays in the mailbox. *)
Theorem give_up_leaves_reply (aborted : bool) (elapsed : Z) (timeoutSec : N)
    (id : string) (s s' : st) (o : outcome) :
  poll_tick aborted elapsed timeoutSec (question_file id) (response_file id) s =
    (Ok (Done o), s') ->
  o = aborted_outcome \/ o = timeout_outcome timeoutSec ->
  mb_files (st_mb s') = delete (question_file id) (mb_files (st_mb s)) /\
  mb_files (st_mb s') !! response_file id = mb_files (st_mb s) !! response_file id.
Proof.
  intros H Ho.
  assert (Hgive : mb_files (st_mb s') = delete (question_file id) (mb_files (st_mb s))).
  { unfold poll_tick in H. destruct aborted; [|destruct (bool_decide _)].
    - unfold bind in H. rewrite unlink_if_exists_spec in H. cbn in H.
      injection H as _ <-. reflexivity.
    - unfold bind in H. rewrite unlink_if_exists_spec in H. cbn in H.
      injection H as _ <-. reflexivity.
    - exfalso.
      destruct (check_reply_outcome _ _ s _ s' H) as [Hn|[o' [Heq Ho']]];
        [discriminate|].
      injection Heq as <-.
      destruct Ho as [->| ->]; destruct Ho' as [[t Ht]|Ht]; discriminate. }
  split; [exact Hgive|]. rewrite Hgive.
  apply lookup_delete_ne. apply question_response_file_ne.
Qed.

(** C2: a tick checks cancellation first, then the deadline, then the reply.
    Take any tick [e] reached after earlier ticks that found no usable reply.
    If [context.abort.aborted] is set at [e], it returns the abort outcome
    whatever the clock says and whatever the mailbox holds.  If it is not set
    but the deadline has passed, it returns the timeout outcome even when a
    parsed reply is present.  In both cases the tick only checks for and
    deletes the question file: the reply file is neither read nor deleted, and
    no later tick runs.  Only when neither holds is a parsed reply consumed. *)
Theorem abort_wins_race (timeoutSec : N) (id : string)
    (before : list tick_env) (e : tick_env) (after : list tick_env) (s s1 : st) :
  poll_loop timeoutSec (question_file id) (response_file id) before s = (Ok None, s1) ->
  te_aborted e = true ->
  (let '(r, s') := poll_loop timeoutSec (question_file id) (response_file id)
                     (before ++ e :: after) s in
   r = Ok (Some aborted_outcome) /\
   (st_tr s' = (st_tr s1 ++ [OExists (question_file id)])%list \/
    st_tr s' = (st_tr s1 ++ [OExists (question_file id); OUnlink (question_file id)])%list) /\
   mb_files (st_mb s') !! response_file id =
     mb_files (te_other e (st_mb s1)) !! response_file id) /\
  (forall e' : tick_env,
     te_aborted e' = false ->
     (te_elapsed e' > Z.of_N timeoutSec * 1000)%Z ->
     let '(r, s') := poll_loop timeoutSec (question_file id) (response_file id)
                       (before ++ e' :: after) s in
     r = Ok (Some (timeout_outcome timeoutSec)) /\
     (st_tr s' = (st_tr s1 ++ [OExists (question_file id)])%list \/
      st_tr s' = (st_tr s1 ++ [OExists (question_file id); OUnlink (question_file id)])%list) /\
     mb_files (st_mb s') !! response_file id =
       mb_files (te_other e' (st_mb s1)) !! response_file id) /\
  (forall (e' : tick_env) (d : doc),
     te_aborted e' = false ->
     (te_elapsed e' <= Z.of_N timeoutSec * 1000)%Z ->
     mb_files (te_other e' (st_mb s1)) !! response_file id = Some (CDoc d) ->
     fst (poll_loop timeoutSec (question_file id) (response_file id)
            (before ++ e' :: after) s) =
       Ok (Some (if doc_responded d then answered_outcome (doc_response d)
                 else user_cancelled_outcome))).
Proof.
  intros Hbefore Hab. split; [|split].
  - rewrite poll_loop_app, Hbefore, poll_loop_cons, Hab.
    unfold poll_tick, bind. rewrite unlink_if_exists_spec. cbn.
    split; [reflexivity|]. split.
    + destruct (bool_decide _); [right|left]; reflexivity.
    + apply lookup_delete_ne. apply question_response_file_ne.
  - intros e' Hab' Hel.
    rewrite poll_loop_app, Hbefore, poll_loop_cons, Hab'.
    unfold poll_tick. rewrite bool_decide_true by exact Hel.
    unfold bind. rewrite unlink_if_exists_spec. cbn.
    split; [reflexivity|]. split.
    + destruct (bool_decide _); [right|left]; reflexivity.
    + apply lookup_delete_ne. apply question_response_file_ne.
  - intros e' d Hab' Hel Hrf.
    rewrite poll_loop_app, Hbefore, poll_loop_cons, Hab'.
    rewrite (poll_tick_consume _ _ _ _ _ d);
      [reflexivity | apply question_response_file_ne | exact Hel | exact Hrf].
Qed.

(** C1: an answer written by [promptUser] with [responded = true] holds
    exactly the collected lines joined with newlines and trimmed, and a
    Requester tick that finds this reply returns that text. *)
Theorem answered_reply_round_trip (q : Question) (s s' : st) (r : Response) :
  promptUser (JQuestion q) s = (Ok tt, s') ->
  mb_files (st_mb s') !! response_file (q_id q) = Some (CDoc (JResponse r)) ->
  r_responded r = true ->
  exists lines rest,
    collect [] 0 (st_input s) = Some (lines, rest) /\
    r_response r = joined_response lines /\
    forall (timeoutSec : N) (elapsed : Z) (other : mailbox -> mailbox)
           (sched : list tick_env) (s2 : st),
      (elapsed <= Z.of_N timeoutSec * 1000)%Z ->
      mb_files (other (st_mb s2)) !! response_file (q_id q) = Some (CDoc (JResponse r)) ->
      fst (poll_loop timeoutSec (question_file (q_id q)) (response_file (q_id q))
             ({| te_aborted := false; te_elapsed := elapsed; te_other := other |} :: sched)
             s2)
      = Ok (Some (answered_outcome (joined_response lines))).
Proof.
  intros Hp Hf Hr.
  unfold promptUser, bind at 1, take_input in Hp.
  destruct (collect [] 0 (st_input s)) as [[lines rest]|] eqn:Hc; [|discriminate].
  exists lines, rest. unfold bind, set_input in Hp.
  assert (Hrec : r_response r = joined_response lines).
  { destruct (String.eqb (to_lower (joined_response lines)) "cancel");
      unfold writeResponse, bind, now, writeFileSync in Hp; cbn in Hp;
      destruct (mb_write_fails (st_mb s)); try discriminate;
      injection Hp as <-; cbn in Hf; rewrite lookup_insert_eq in Hf;
      injection Hf as <-; cbn in Hr |- *; congruence. }
  split; [reflexivity|]. split; [exact Hrec|].
  intros timeoutSec elapsed other sched s2 Hel Hf2.
  rewrite poll_loop_cons. cbn [te_aborted te_elapsed te_other].
  rewrite (poll_tick_consume _ _ _ _ _ (JResponse r)); cbn;
    [| apply question_response_file_ne | exact Hel | exact Hf2].
  rewrite Hr, Hrec. reflexivity.
Qed.

(** Every object a tick returns carries [reason] exactly when it is
    [cancelled]. *)
Lemma requester_outcome_reason (timeoutSec : N) (o : outcome) :
  requester_outcome timeoutSec o -> (is_Some (o_reason o) <-> o_cancelled o = true).
Proof.
  intros [->|[->|[[t ->]| ->]]]; cbn; split; intros H;
    try reflexivity; try discriminate; eauto; destruct H; discriminate.
Qed.

(** C4: when the collected text is [cancel] in any letter case, [promptUser]
    writes the reply [{id, response: "", responded: false}], a Requester tick
    that finds it returns the user-cancelled object, and every object the
    Requester returns has [reason] exactly when [cancelled] is true. *)
Theorem keyword_cancel (q : Question) (s : st) (lines rest : list string) :
  collect [] 0 (st_input s) = Some (lines, rest) ->
  to_lower (joined_response lines) = "cancel" ->
  mb_write_fails (st_mb s) = false ->
  let '(r, s') := promptUser (JQuestion q) s in
  let reply := {| r_id := q_id q; r_response := ""; r_responded := false;
                  r_timestamp := st_now s |} in
  r = Ok tt /\
  mb_files (st_mb s') !! response_file (q_id q) = Some (CDoc (JResponse reply)) /\
  (forall (timeoutSec : N) (elapsed : Z) (other : mailbox -> mailbox)
          (sched : list tick_env) (s2 : st),
     (elapsed <= Z.of_N timeoutSec * 1000)%Z ->
     mb_files (other (st_mb s2)) !! response_file (q_id q) = Some (CDoc (JResponse reply)) ->
     fst (poll_loop timeoutSec (question_file (q_id q)) (response_file (q_id q))
            ({| te_aborted := false; te_elapsed := elapsed; te_other := other |} :: sched)
            s2)
     = Ok (Some user_cancelled_outcome)) /\
  (forall (aborted : bool) (elapsed : Z) (timeoutSec : N) (qf rf : string)
          (s3 s4 : st) (o : outcome),
     poll_tick aborted elapsed timeoutSec qf rf s3 = (Ok (Done o), s4) ->
     (is_Some (o_reason o) <-> o_cancelled o = true)).
Proof.
  intros Hc Hlow Hw.
  unfold promptUser, bind at 1, take_input. rewrite Hc.
  unfold bind, set_input. rewrite Hlow. cbn [String.eqb Ascii.eqb Bool.eqb andb].
  unfold writeResponse, bind, now, writeFileSync. cbn -[poll_loop poll_tick]. rewrite Hw.
  split; [reflexivity|]. split; [apply lookup_insert_eq|]. split.
  - intros timeoutSec elapsed other sched s2 Hel Hf2.
    rewrite poll_loop_cons. cbn [te_aborted te_elapsed te_other].
    rewrite (poll_tick_consume _ _ _ _ (set_mb (other (st_mb s2)) s2) _
               (question_response_file_ne _) Hel Hf2).
    reflexivity.
  - intros aborted elapsed timeoutSec qf rf s3 s4 o Ht.
    destruct (poll_tick_outcome aborted elapsed timeoutSec qf rf s3 _ s4 Ht)
      as [Hn|[o' [Heq Ho]]]; [discriminate|].
    injection Heq as <-. exact (requester_outcome_reason _ _ Ho).
Qed.

(* ------------------------------------------------------------------ *)
(** ** Input collection *)

Lemma collect_after_content (acc : list string) (n : nat) (input lines rest : list string) :
  acc <> [] ->
  collect acc n input = Some (lines, rest) <->
  exists l2, Forall (fun l => l <> "") l2 /\ input = (l2 ++ "" :: rest)%list /\
             lines = (acc ++ l2)%list.
Proof.
  revert acc n. induction input as [|x input IH]; intros acc n Hacc; cbn [collect].
  - split; [discriminate|]. intros (l2 & _ & Heq & _). destruct l2; discriminate.
  - destruct (String.eqb_spec x "") as [->|Hx].
    + assert (Hlen : Nat.ltb 0 (length acc) = true)
        by (destruct acc; [congruence|reflexivity]).
      rewrite Hlen. cbn. split.
      * intros H. injection H as <- <-. exists []. rewrite app_nil_r. auto.
      * intros (l2 & Hl2 & Heq & ->). destruct l2 as [|y l2].
        -- injection Heq as <-. rewrite app_nil_r. reflexivity.
        -- injection Heq as Hy _. inversion Hl2; subst; congruence.
    + rewrite IH by (destruct acc; discriminate). split.
      * intros (l2 & Hl2 & -> & ->). exists (x :: l2).
        rewrite <- app_assoc. auto.
      * intros (l2 & Hl2 & Heq & ->). destruct l2 as [|y l2]; injection Heq as -> Heq.
        -- congruence.
        -- inversion Hl2; subst. exists l2. rewrite <- app_assoc. auto.
Qed.

Lemma collect_from_start (n : nat) (input lines rest : list string) :
  collect [] n input = Some (lines, rest) <->
  exists k, input = (replicate k "" ++ lines ++ "" :: rest)%list /\ lines <> [] /\
            Forall (fun l => l <> "") lines.
Proof.
  revert n. induction input as [|x input IH]; intros n; cbn [collect].
  - split; [discriminate|]. intros (k & Heq & Hne & _).
    destruct k, lines; cbn in Heq; congruence.
  - destruct (String.eqb_spec x "") as [->|Hx].
    + cbn. rewrite IH. split.
      * intros (k & -> & Hne & Hf). exists (S k). auto.
      * intros (k & Heq & Hne & Hf). destruct k as [|k].
        -- destruct lines as [|y lines]; [congruence|].
           injection Heq as Hy _. inversion Hf; subst; congruence.
        -- injection Heq as Heq. eauto.
    + rewrite (collect_after_content [x]) by discriminate. split.
      * intros (l2 & Hl2 & -> & ->). exists 0. cbn. split; [reflexivity|].
        split; [discriminate|]. constructor; assumption.
      * intros (k & Heq & Hne & Hf). destruct k as [|k]; cbn in Heq.
        -- destruct lines as [|y lines]; [congruence|].
           injection Heq as -> ->. inversion Hf; subst. exists lines. auto.
        -- injection Heq as Heq. congruence.
Qed.

(** C3 (as stated): two empty lines typed before any non-empty line do not
    end the input; collection goes on and submits at a later empty line. *)
Lemma leading_empty_lines_do_not_submit :
  collect [] 0 [""; ""] = None /\
  collect [] 0 [""; ""; "yes"; ""] = Some (["yes"], []).
Proof. split; reflexivity. Qed.

(** C3 (amended): [promptUser] submits at the first empty line that follows
    a non-empty line, and only there.  Empty lines before the first non-empty
    line are ignored; the submitted lines are the non-empty lines typed in
    between. *)
Theorem collect_submits_after_content (input lines rest : list string) :
  collect [] 0 input = Some (lines, rest) <->
  exists k, input = (replicate k "" ++ lines ++ "" :: rest)%list /\ lines <> [] /\
            Forall (fun l => l <> "") lines.
Proof. apply collect_from_start. Qed.

(* ------------------------------------------------------------------ *)
(** ** Relations preserved by whole computations *)

Section Respects.
Variable R : st -> st -> Prop.
Hypothesis R_refl : forall s, R s s.
Hypothesis R_trans : forall s1 s2 s3, R s1 s2 -> R s2 s3 -> R s1 s3.

(** [m] relates its start state to its end state, however it ends. *)
Definition respects {A} (m : M A) : Prop := forall s, R s (snd (m s)).

Lemma respects_ret {A} (a : A) : respects (ret a).
Proof. intros s. apply R_refl. Qed.

Lemma respects_throw {A} (e : err) : respects (A := A) (throw e).
Proof. intros s. apply R_refl. Qed.

Lemma respects_wait {A} : respects (A := A) (fun s => (Wait, s)).
Proof. intros s. apply R_refl. Qed.

Lemma respects_bind {A B} (m : M A) (f : A -> M B) :
  respects m -> (forall a, respects (f a)) -> respects (bind m f).
Proof.
  intros Hm Hf s. unfold bind. specialize (Hm s).
  destruct (m s) as [[a|e|] s1]; cbn in *;
    [eapply R_trans; [exact Hm | apply Hf] | exact Hm | exact Hm].
Qed.

Lemma respects_catch {A} (m : M A) (h : err -> M A) :
  respects m -> (forall e, respects (h e)) -> respects (catch m h).
Proof.
  intros Hm Hh s. unfold catch. specialize (Hm s).
  destruct (m s) as [[a|e|] s1]; cbn in *;
    [exact Hm | eapply R_trans; [exact Hm | apply Hh] | exact Hm].
Qed.
End Respects.

Arguments respects R {A} m.

(** The Responder's own actions: it never unlinks, and it writes only
    [response_<id>.json] files. *)
Definition responder_op (o : op) : Prop :=
  match o with
  | OUnlink _ => False
  | OWrite p => exists id, p = response_file id
  | _ => True
  end.

Definition trace_ext (s s' : st) : Prop :=
  exists ops, st_tr s' = (st_tr s ++ ops)%list /\ Forall responder_op ops.

(** The mailbox only gains: the directory once created stays, and every file
    is unchanged unless it is a reply record [response_<id>.json] holding a
    reply. *)
Definition mb_grows (m m' : mailbox) : Prop :=
  (mb_dir m = true -> mb_dir m' = true) /\
  forall p, mb_files m' !! p = mb_files m !! p \/
            exists id r, p = response_file id /\ mb_files m' !! p = Some (CDoc (JResponse r)).

Definition responder_step (s s' : st) : Prop :=
  trace_ext s s' /\ mb_grows (st_mb s) (st_mb s').

Lemma trace_ext_refl (s : st) : trace_ext s s.
Proof. exists []. rewrite app_nil_r. auto. Qed.

Lemma trace_ext_trans (s1 s2 s3 : st) : trace_ext s1 s2 -> trace_ext s2 s3 -> trace_ext s1 s3.
Proof.
  intros (o1 & H1 & F1) (o2 & H2 & F2). exists (o1 ++ o2)%list.
  rewrite H2, H1, app_assoc. split; [reflexivity|]. apply Forall_app; auto.
Qed.

Lemma responder_step_refl (s : st) : responder_step s s.
Proof. split; [apply trace_ext_refl|]. split; auto. Qed.

Lemma responder_step_trans (s1 s2 s3 : st) :
  responder_step s1 s2 -> responder_step s2 s3 -> responder_step s1 s3.
Proof.
  intros [T1 [D1 F1]] [T2 [D2 F2]]. split; [eapply trace_ext_trans; eauto|].
  split; [auto|]. intros p.
  destruct (F2 p) as [E2|(id & r & -> & E2)]; [|eauto 10].
  destruct (F1 p) as [E1|(id & r & -> & E1)]; [left; congruence|].
  right. exists id, r. split; [reflexivity|]. congruence.
Qed.

Lemma same_step (s s' : st) :
  st_tr s' = st_tr s -> st_mb s' = st_mb s -> responder_step s s'.
Proof.
  intros Ht Hm. split.
  - exists []. rewrite app_nil_r. auto.
  - rewrite Hm. split; auto.
Qed.

Lemma log_step (o : op) (s : st) : responder_op o -> responder_step s (log o s).
Proof.
  intros Ho. split; [|split; auto].
  exists [o]. split; [reflexivity|]. repeat constructor; assumption.
Qed.

Definition rs_bind {A B} (m : M A) (f : A -> M B) :=
  respects_bind responder_step responder_step_trans m f.
Definition rs_catch {A} (m : M A) (h : err -> M A) :=
  respects_catch responder_step responder_step_trans m h.
Definition rs_ret {A} (a : A) := respects_ret responder_step responder_step_refl a.
Definition rs_throw {A} (e : err) := respects_throw responder_step responder_step_refl (A := A) e.
Definition rs_wait {A} := respects_wait responder_step responder_step_refl (A := A).

Lemma readFileSync_step (p : string) : respects responder_step (readFileSync p).
Proof.
  intros s. unfold readFileSync.
  destruct (mb_files (st_mb (log (ORead p) s)) !! p); apply log_step; exact I.
Qed.

Lemma readdirSync_step : respects responder_step readdirSync.
Proof. intros s. unfold readdirSync. destruct (mb_readdir_fails _); apply log_step; exact I. Qed.

Lemma ensureIpcDir_step : respects responder_step ensureIpcDir.
Proof.
  unfold ensureIpcDir. apply rs_bind.
  - intros s. apply responder_step_refl.
  - intros b. destruct b; [intros s; apply responder_step_refl|].
    intros s. split; [apply log_step; exact I|]. split; cbn; auto.
Qed.

Lemma read_questions_step (files : list string) : respects responder_step (read_questions files).
Proof.
  induction files as [|f files IH]; cbn [read_questions];
    [intros s; apply responder_step_refl|].
  apply rs_bind; [apply rs_catch|]; intros.
  - apply rs_bind; [apply readFileSync_step|]; intros c.
    apply rs_bind; [|intros; intros s; apply responder_step_refl].
    destruct c; intros s; apply responder_step_refl.
  - intros s; apply responder_step_refl.
  - apply rs_bind; [exact IH|]. intros ds s. apply responder_step_refl.
Qed.

Lemma writeResponse_step (id response : string) (responded : bool) :
  respects responder_step (writeResponse id response responded).
Proof.
  intros s. unfold writeResponse, bind, now, writeFileSync. cbn [st_mb log].
  assert (Hop : responder_op (OWrite (response_file id))) by (exists id; reflexivity).
  destruct (mb_write_fails (st_mb s)); cbn [snd]; [apply log_step; exact Hop|].
  split; [apply log_step; exact Hop|]. split; cbn; [auto|].
  intros p. destruct (decide (p = response_file id)) as [->|Hne].
  - right. eexists _, _. split; [reflexivity|]. apply lookup_insert_eq.
  - left. apply lookup_insert_ne. congruence.
Qed.

Lemma promptUser_step (question : doc) : respects responder_step (promptUser question).
Proof.
  unfold promptUser. apply rs_bind; [intros s; apply responder_step_refl|].
  intros [[lines rest]|].
  - apply rs_bind; [intros s; apply same_step; reflexivity|]. intros _.
    destruct (String.eqb _ _); apply writeResponse_step.
  - apply rs_bind; [intros s; apply same_step; reflexivity|]. intros _. apply rs_wait.
Qed.

Lemma printQuestion_step (question : doc) : respects responder_step (printQuestion question).
Proof.
  destruct question; [intros s; apply log_step; exact I | apply rs_throw].
Qed.

Lemma handle_questions_step (questions : list doc) :
  respects responder_step (handle_questions questions).
Proof.
  induction questions as [|d ds IH]; cbn [handle_questions]; [apply rs_ret|].
  apply rs_bind; [intros s; apply responder_step_refl|]. intros b. destruct b; [exact IH|].
  apply rs_bind; [intros s; apply same_step; reflexivity|]; intros _.
  apply rs_bind; [apply printQuestion_step|]; intros _.
  apply rs_bind; [apply promptUser_step|]; intros _. exact IH.
Qed.

Lemma responder_tick_step : respects responder_step responder_tick.
Proof.
  unfold responder_tick, getPendingQuestions.
  apply rs_bind; [|intros; apply handle_questions_step].
  apply rs_bind; [apply ensureIpcDir_step|]; intros _.
  apply rs_bind; [apply readdirSync_step|]; intros names.
  apply read_questions_step.
Qed.

Lemma responder_loop_trace (sched : list (mailbox -> mailbox)) :
  respects trace_ext (responder_loop sched).
Proof.
  induction sched as [|other sched IH]; cbn [responder_loop];
    [apply (respects_ret _ trace_ext_refl)|].
  apply (respects_bind _ trace_ext_trans);
    [intros s; exists []; rewrite app_nil_r; auto|]; intros _.
  apply (respects_bind _ trace_ext_trans); [|intros _; exact IH].
  intros s. apply (responder_tick_step s).
Qed.

(** C6: the Responder never deletes anything.  Over its whole loop, whatever
    the other process does between ticks, the Responder's own actions contain
    no unlink and write only [response_<id>.json] files; and within a tick the
    mailbox only gains: the directory, once there, stays, every file present
    before is still present, and any file whose contents changed is a reply
    record [response_<id>.json]. *)
Theorem responder_never_deletes (s : st) :
  (forall sched : list (mailbox -> mailbox),
     exists ops, st_tr (snd (responder_loop sched s)) = (st_tr s ++ ops)%list /\
       Forall (fun o => (forall p, o <> OUnlink p) /\
                        (forall p, o = OWrite p -> exists id, p = response_file id)) ops) /\
  let s' := snd (responder_tick s) in
  (mb_dir (st_mb s) = true -> mb_dir (st_mb s') = true) /\
  (forall p, p ∈ dom (mb_files (st_mb s)) -> p ∈ dom (mb_files (st_mb s'))) /\
  (forall p, mb_files (st_mb s') !! p <> mb_files (st_mb s) !! p ->
     exists id r, p = response_file id /\
                  mb_files (st_mb s') !! p = Some (CDoc (JResponse r))).
Proof.
  split.
  - intros sched. destruct (responder_loop_trace sched s) as (ops & Htr & Hf).
    exists ops. split; [exact Htr|].
    eapply Forall_impl; [exact Hf|]. intros o Ho. split.
    + intros p ->. exact Ho.
    + intros p ->. exact Ho.
  - destruct (responder_tick_step s) as [_ [Hd Hf]]. cbv zeta.
    split; [exact Hd|]. split.
    + intros p Hp. apply elem_of_dom in Hp. apply elem_of_dom.
      destruct (Hf p) as [->|(id & r & _ & ->)]; [exact Hp | eauto].
    + intros p Hne. destruct (Hf p) as [E|H]; [contradiction | exact H].
Qed.

(* ------------------------------------------------------------------ *)
(** ** Deleting an absent reply file *)

(** C5: the cleanup after a parsed reply (lines 133-136) guards the question
    file with [existsSync] but unlinks the reply file unconditionally: run
    when the reply file is absent, it throws [ENOENT]. *)
Theorem reply_cleanup_missing_reply_throws (id : string) (s : st) :
  mb_files (st_mb s) !! response_file id = None ->
  fst (reply_cleanup (question_file id) (response_file id) s) =
    Err (ENOENT (response_file id)).
Proof.
  intros Hr. unfold reply_cleanup, bind. rewrite unlink_if_exists_spec.
  unfold unlinkSync. cbn [st_mb log set_files mb_files fst].
  rewrite lookup_delete_ne by apply question_response_file_ne.
  rewrite Hr. reflexivity.
Qed.

(* ------------------------------------------------------------------ *)
(** ** I/O failures in the Responder *)

Lemma responder_loop_app (before after : list (mailbox -> mailbox)) (s : st) :
  responder_loop (before ++ after) s =
    match responder_loop before s with
    | (Ok _, s') => responder_loop after s'
    | r => r
    end.
Proof.
  revert s. induction before as [|other before IH]; intros s.
  - cbn. destruct s; reflexivity.
  - cbn [app responder_loop]. unfold bind at 1 3, modify_mb.
    unfold bind at 1 2. destruct (responder_tick _) as [[[]| |] s']; auto.
Qed.

Lemma read_questions_ok (files : list string) (s : st) :
  exists ds s', read_questions files s = (Ok ds, s').
Proof.
  revert s. induction files as [|f files IH]; intros s; cbn [read_questions]; [eauto|].
  unfold bind at 1, catch, bind at 1, readFileSync.
  destruct (mb_files (st_mb (log (ORead f) s)) !! f) as [[d|]|];
    cbn; unfold bind, ret; try destruct (IH (log (ORead f) s)) as (ds & s' & ->);
    eauto.
Qed.

(** C7 (as stated): a failure listing the mailbox is not logged and
    skipped; the process exits with status 1 after the first tick, and the
    second scheduled tick never lists the directory. *)
Lemma readdir_failure_ends_responder :
  let s0 := start_st {| mb_dir := true; mb_files := ∅; mb_readdir_fails := true;
                        mb_write_fails := false |} [] in
  fst (run_responder [fun m => m; fun m => m] s0) = Exited 1 /\
  st_tr (snd (run_responder [fun m => m; fun m => m] s0)) = [OReaddir].
Proof. split; reflexivity. Qed.

(** C7 (amended): an exception in a tick of the Responder's loop ends the
    process with status 1 and no later tick runs; a failure listing the
    mailbox and a failure writing a reply are such exceptions.  Only request
    files that cannot be read or parsed are skipped. *)
Theorem responder_io_failure_exits (before : list (mailbox -> mailbox))
    (other : mailbox -> mailbox) (after : list (mailbox -> mailbox)) (s s1 : st) :
  responder_loop before s = (Ok tt, s1) ->
  (forall (e : err) (s2 : st),
     responder_tick (set_mb (other (st_mb s1)) s1) = (Err e, s2) ->
     run_responder (before ++ other :: after) s = (Exited 1, s2)) /\
  (mb_readdir_fails (other (st_mb s1)) = true ->
     fst (run_responder (before ++ other :: after) s) = Exited 1) /\
  (forall (q : Question) (t : st) (lines rest : list string),
     collect [] 0 (st_input t) = Some (lines, rest) ->
     mb_write_fails (st_mb t) = true ->
     fst (promptUser (JQuestion q) t) = Err EIO) /\
  (forall (files : list string) (t : st),
     exists ds t', read_questions files t = (Ok ds, t')).
Proof.
  intros Hbefore.
  assert (Hexit : forall (e : err) (s2 : st),
             responder_tick (set_mb (other (st_mb s1)) s1) = (Err e, s2) ->
             run_responder (before ++ other :: after) s = (Exited 1, s2)).
  { intros e s2 Ht. unfold run_responder. rewrite responder_loop_app, Hbefore.
    cbn [responder_loop]. unfold bind at 1, modify_mb. unfold bind at 1.
    rewrite Ht. reflexivity. }
  split; [exact Hexit|]. split; [|split].
  - intros Hfail.
    assert (Ht : exists s2, responder_tick (set_mb (other (st_mb s1)) s1) = (Err EIO, s2)).
    { unfold responder_tick, getPendingQuestions, ensureIpcDir, bind, dirExists.
      cbn [set_mb st_mb].
      destruct (mb_dir (other (st_mb s1))); unfold ret, mkdirSync, readdirSync;
        cbn; rewrite Hfail; eauto. }
    destruct Ht as [s2 Ht]. rewrite (Hexit _ _ Ht). reflexivity.
  - intros q t lines rest Hc Hw.
    unfold promptUser, bind, take_input. rewrite Hc.
    unfold set_input. cbn [fst].
    destruct (String.eqb _ _); unfold writeResponse, bind, now, writeFileSync;
      cbn; rewrite Hw; reflexivity.
  - apply read_questions_ok.
Qed.

(* ------------------------------------------------------------------ *)
(** ** Deduplication and order of presentation *)

(** The ids shown to the human, in order. *)
Definition presented (ops : list op) : list string :=
  omap (fun o => match o with OPresent id => Some id | _ => None end) ops.

(** Between two states: the ids shown are distinct, were not in
    [processedQuestions] at the start, and are in it at the end; the set only
    grows. *)
Definition seen_step (s s' : st) : Prop :=
  exists ops, st_tr s' = (st_tr s ++ ops)%list /\ NoDup (presented ops) /\
    (forall id, id ∈ presented ops -> (id ∉ st_seen s) /\ (id ∈ st_seen s')) /\
    st_seen s ⊆ st_seen s'.

Lemma seen_same (s s' : st) :
  st_tr s' = st_tr s -> st_seen s ⊆ st_seen s' -> seen_step s s'.
Proof.
  intros Ht Hs. exists []. rewrite app_nil_r. cbn.
  split; [auto|]. split; [constructor|]. split; [|exact Hs].
  intros id Hid. inversion Hid.
Qed.

Lemma seen_refl (s : st) : seen_step s s.
Proof. apply seen_same; [reflexivity | set_solver]. Qed.

Lemma seen_trans (s1 s2 s3 : st) : seen_step s1 s2 -> seen_step s2 s3 -> seen_step s1 s3.
Proof.
  intros (o1 & T1 & N1 & P1 & S1) (o2 & T2 & N2 & P2 & S2).
  exists (o1 ++ o2)%list. rewrite T2, T1, app_assoc. split; [reflexivity|].
  unfold presented in *. rewrite omap_app. split; [|split].
  - apply NoDup_app. split; [exact N1|]. split; [|exact N2].
    intros id H1 H2. destruct (P1 id H1) as [_ Hin]. destruct (P2 id H2) as [Hout _].
    contradiction.
  - intros id Hid. apply elem_of_app in Hid as [Hid|Hid].
    + destruct (P1 id Hid). split; [assumption | set_solver].
    + destruct (P2 id Hid). split; [set_solver | assumption].
  - set_solver.
Qed.

Lemma seen_log (o : op) (s : st) : (forall id, o <> OPresent id) -> seen_step s (log o s).
Proof.
  intros Ho. exists [o]. split; [reflexivity|].
  destruct o; try (exfalso; eapply Ho; reflexivity); cbn;
    (split; [constructor|]; split; [intros id Hid; inversion Hid | set_solver]).
Qed.

Definition ss_bind {A B} (m : M A) (f : A -> M B) := respects_bind seen_step seen_trans m f.
Definition ss_catch {A} (m : M A) (h : err -> M A) := respects_catch seen_step seen_trans m h.

Ltac seen_prim :=
  intros ?s; first [ apply seen_refl | apply seen_log; intros ? ?; discriminate
                   | apply seen_same; [reflexivity | cbn; set_solver] ].

Lemma writeResponse_seen (id response : string) (responded : bool) :
  respects seen_step (writeResponse id response responded).
Proof.
  intros s. unfold writeResponse, bind, now, writeFileSync.
  destruct (mb_write_fails _); cbn [snd].
  - apply seen_log. intros ? ?; discriminate.
  - eapply seen_trans; [apply (seen_log (OWrite (response_file id)))|];
      [intros ? ?; discriminate|]. apply seen_same; [reflexivity | set_solver].
Qed.

Lemma promptUser_seen (question : doc) : respects seen_step (promptUser question).
Proof.
  unfold promptUser. apply ss_bind; [seen_prim|]. intros [[lines rest]|].
  - apply ss_bind; [seen_prim|]. intros _.
    destruct (String.eqb _ _); apply writeResponse_seen.
  - apply ss_bind; [seen_prim|]. intros _. seen_prim.
Qed.

Lemma handle_questions_seen (questions : list doc) :
  respects seen_step (handle_questions questions).
Proof.
  induction questions as [|d ds IH]; cbn [handle_questions]; [seen_prim|].
  intros s. unfold bind at 1, has_processed.
  destruct (bool_decide (doc_id d ∈ st_seen s)) eqn:E; [apply IH|].
  apply bool_decide_eq_false_1 in E.
  unfold bind at 1, add_processed. unfold bind at 1.
  set (s1 := {| st_mb := st_mb s; st_tr := st_tr s;
                st_seen := {[doc_id d]} ∪ st_seen s;
                st_input := st_input s; st_now := st_now s |}).
  destruct d as [q|r]; cbn [printQuestion].
  - assert (H1 : seen_step s (log (OPresent (q_id q)) s1)).
    { exists [OPresent (q_id q)]. split; [reflexivity|]. cbn.
      split; [repeat constructor; set_solver|].
      split; [|set_solver]. intros id Hid. apply list_elem_of_singleton in Hid.
      subst id. cbn in E. split; [exact E | set_solver]. }
    eapply seen_trans; [exact H1|].
    apply (ss_bind _ _ (promptUser_seen (JQuestion q))). intros _. exact IH.
  - apply seen_same; [reflexivity | cbn; set_solver].
Qed.

Lemma read_questions_seen (files : list string) : respects seen_step (read_questions files).
Proof.
  induction files as [|f files IH]; cbn [read_questions]; [seen_prim|].
  apply ss_bind; [apply ss_catch|]; intros.
  - apply ss_bind.
    + intros s. unfold readFileSync. destruct (_ !! f); apply seen_log; intros ? ?; discriminate.
    + intros c. apply ss_bind; [destruct c; seen_prim | intros; seen_prim].
  - seen_prim.
  - apply ss_bind; [exact IH | intros; seen_prim].
Qed.

Lemma responder_tick_seen : respects seen_step responder_tick.
Proof.
  unfold responder_tick, getPendingQuestions.
  apply ss_bind; [|intros; apply handle_questions_seen].
  apply ss_bind.
  - unfold ensureIpcDir. apply ss_bind; [seen_prim|]. intros []; [seen_prim|].
    intros s. unfold mkdirSync.
    eapply seen_trans; [apply (seen_log OMkdir); intros ? ?; discriminate|].
    apply seen_same; [reflexivity | set_solver].
  - intros _. apply ss_bind; [|intros; apply read_questions_seen].
    intros s. unfold readdirSync.
    destruct (mb_readdir_fails _); apply seen_log; intros ? ?; discriminate.
Qed.

Lemma responder_loop_seen (sched : list (mailbox -> mailbox)) :
  respects seen_step (responder_loop sched).
Proof.
  induction sched as [|other sched IH]; cbn [responder_loop]; [seen_prim|].
  apply ss_bind; [seen_prim|]; intros _.
  apply ss_bind; [apply responder_tick_seen | intros _; exact IH].
Qed.

(** What the human sees happen: questions shown and replies written. *)
Definition is_dialog (o : op) : bool :=
  match o with OPresent _ | OWrite _ => true | _ => false end.

Definition dialog (ops : list op) : list op := List.filter is_dialog ops.

(** One request served: shown, then its reply written. *)
Definition block (q : Question) : list op :=
  [OPresent (q_id q); OWrite (response_file (q_id q))].

Lemma bind_ok {A B} (m : M A) (f : A -> M B) (s s' : st) (a : A) :
  m s = (Ok a, s') -> bind m f s = f a s'.
Proof. intros H. unfold bind. rewrite H. reflexivity. Qed.

Lemma bind_err {A B} (m : M A) (f : A -> M B) (s s' : st) (e : err) :
  m s = (Err e, s') -> bind m f s = (Err e, s').
Proof. intros H. unfold bind. rewrite H. reflexivity. Qed.

Lemma bind_wait {A B} (m : M A) (f : A -> M B) (s s' : st) :
  m s = (Wait, s') -> bind m f s = (Wait, s').
Proof. intros H. unfold bind. rewrite H. reflexivity. Qed.

Lemma promptUser_ops (q : Question) (s : st) :
  let '(r, s') := promptUser (JQuestion q) s in
  exists ops, st_tr s' = (st_tr s ++ ops)%list /\
    ((r = Wait /\ ops = []) \/ ops = [OWrite (response_file (q_id q))]).
Proof.
  unfold promptUser. erewrite bind_ok by reflexivity.
  destruct (collect [] 0 (st_input s)) as [[lines rest]|].
  - erewrite bind_ok by reflexivity.
    destruct (String.eqb _ _); unfold writeResponse, bind, now, writeFileSync;
      cbn; destruct (mb_write_fails (st_mb s)); cbn; eexists; split;
      try reflexivity; right; reflexivity.
  - erewrite bind_ok by reflexivity. cbn. exists [].
    rewrite app_nil_r. auto.
Qed.

Lemma handle_questions_dialog (ds : list doc) (s : st) :
  let '(r, s') := handle_questions ds s in
  exists ops qs, st_tr s' = (st_tr s ++ ops)%list /\
    map JQuestion qs `sublist_of` ds /\
    (exists rest, List.concat (map block qs) = (dialog ops ++ rest)%list) /\
    (r = Ok tt -> dialog ops = List.concat (map block qs)).
Proof.
  revert s. induction ds as [|d ds IH]; intros s; cbn [handle_questions].
  - exists [], []. rewrite app_nil_r. cbn. split; [reflexivity|].
    split; [constructor|]. split; [exists []; reflexivity | auto].
  - erewrite bind_ok by reflexivity.
    destruct (bool_decide (doc_id d ∈ st_seen s)).
    + specialize (IH s). destruct (handle_questions ds s) as [r s'].
      destruct IH as (ops & qs & Ht & Hsub & Hpre & Hok).
      exists ops, qs. split; [exact Ht|]. split; [by constructor|]. auto.
    + erewrite bind_ok by reflexivity.
      destruct d as [q|r0]; cbn [printQuestion].
      * erewrite bind_ok by reflexivity.
        set (s2 := log (OPresent (q_id q)) _).
        pose proof (promptUser_ops q s2) as Hp.
        destruct (promptUser (JQuestion q) s2) as [[[]|e|] s3] eqn:Ep;
          destruct Hp as (pops & Hpt & Hpo).
        -- rewrite (bind_ok _ _ _ _ _ Ep).
           specialize (IH s3). destruct (handle_questions ds s3) as [r s'].
           destruct IH as (ops & qs & Ht & Hsub & [rest Hpre] & Hok).
           destruct Hpo as [[? _]| ->]; [discriminate|].
           exists (OPresent (q_id q) :: OWrite (response_file (q_id q)) :: ops), (q :: qs).
           split; [rewrite Ht, Hpt; cbn; rewrite <- !app_assoc; reflexivity|].
           split; [cbn; by constructor|].
           change (dialog (OPresent (q_id q) :: OWrite (response_file (q_id q)) :: ops))
             with (OPresent (q_id q) :: OWrite (response_file (q_id q)) :: dialog ops).
           cbn [map List.concat block app].
           split; [exists rest; rewrite Hpre; reflexivity|].
           intros Hr. rewrite (Hok Hr). reflexivity.
        -- rewrite (bind_err _ _ _ _ _ Ep).
           exists (OPresent (q_id q) :: pops), [q].
           split; [rewrite Hpt; cbn; rewrite <- app_assoc; reflexivity|].
           split; [cbn; apply sublist_skip, sublist_nil_l|].
           split; [|discriminate].
           destruct Hpo as [[? ->]| ->]; [discriminate|].
           exists []. reflexivity.
        -- rewrite (bind_wait _ _ _ _ Ep).
           exists (OPresent (q_id q) :: pops), [q].
           split; [rewrite Hpt; cbn; rewrite <- app_assoc; reflexivity|].
           split; [cbn; apply sublist_skip, sublist_nil_l|].
           split; [|discriminate].
           destruct Hpo as [[_ ->]| ->];
             [exists [OWrite (response_file (q_id q))] | exists []]; reflexivity.
      * erewrite bind_err by reflexivity.
        exists [], []. rewrite app_nil_r. split; [reflexivity|].
        split; [apply sublist_nil_l|]. split; [exists []; reflexivity | discriminate].
Qed.

Lemma read_questions_docs (files : list string) (s : st) :
  let '(r, s') := read_questions files s in
  st_mb s' = st_mb s /\
  (exists ops, st_tr s' = (st_tr s ++ ops)%list /\ dialog ops = []) /\
  forall ds, r = Ok ds ->
    exists ns, ns `sublist_of` files /\
      Forall2 (fun n d => mb_files (st_mb s) !! n = Some (CDoc d)) ns ds.
Proof.
  revert s. induction files as [|f files IH]; intros s; cbn [read_questions].
  - cbn. split; [reflexivity|]. split; [exists []; rewrite app_nil_r; auto|].
    intros ds Hds. injection Hds as <-. exists []. split; constructor.
  - set (s1 := log (ORead f) s).
    assert (Hcatch : exists d, catch (let* c := readFileSync f in
                                      let* data := json_parse c in ret [data])
                                     (fun _ => ret []) s = (Ok d, s1) /\
                      exists ns, ns `sublist_of` [f] /\
                        Forall2 (fun n d => mb_files (st_mb s) !! n = Some (CDoc d)) ns d).
    { unfold catch, bind at 1, readFileSync. fold s1.
      change (mb_files (st_mb s1)) with (mb_files (st_mb s)).
      destruct (mb_files (st_mb s) !! f) as [[d|]|] eqn:Ef; cbn.
      - eexists; split; [reflexivity|]. exists [f]. split; [reflexivity|].
        constructor; [exact Ef | constructor].
      - eexists; split; [reflexivity|]. exists []. split; [apply sublist_nil_l | constructor].
      - eexists; split; [reflexivity|]. exists []. split; [apply sublist_nil_l | constructor]. }
    destruct Hcatch as (d & Hc & ns1 & Hs1 & Hf1).
    rewrite (bind_ok _ _ _ _ _ Hc).
    specialize (IH s1). unfold bind, ret.
    destruct (read_questions files s1) as [[ds'|e|] s'] eqn:Er;
      destruct IH as (Hmb & (ops & Ht & Hd) & Hr).
    + split; [exact Hmb|]. split.
      * exists (ORead f :: ops). rewrite Ht. cbn. rewrite <- app_assoc. split; auto.
      * intros ds Hds. injection Hds as <-. destruct (Hr ds' eq_refl) as (ns2 & Hs2 & Hf2).
        exists (ns1 ++ ns2)%list. split.
        -- change (f :: files) with ([f] ++ files)%list. apply sublist_app; assumption.
        -- apply Forall2_app; [exact Hf1 | exact Hf2].
    + split; [exact Hmb|]. split; [|discriminate].
      exists (ORead f :: ops). rewrite Ht. cbn. rewrite <- app_assoc. split; auto.
    + split; [exact Hmb|]. split; [|discriminate].
      exists (ORead f :: ops). rewrite Ht. cbn. rewrite <- app_assoc. split; auto.
Qed.

(** The names [getPendingQuestions] goes through, in order. *)
Definition pending_names (m : mailbox) : list string :=
  merge_sort String.le (List.filter is_question_name (map fst (map_to_list (mb_files m)))).

Lemma getPendingQuestions_docs (s : st) :
  let '(r, s') := getPendingQuestions s in
  mb_files (st_mb s') = mb_files (st_mb s) /\
  (exists ops, st_tr s' = (st_tr s ++ ops)%list /\ dialog ops = []) /\
  forall ds, r = Ok ds ->
    exists ns, ns `sublist_of` pending_names (st_mb s) /\
      Forall2 (fun n d => mb_files (st_mb s) !! n = Some (CDoc d)) ns ds.
Proof.
  unfold getPendingQuestions.
  assert (He : exists s1 ops, ensureIpcDir s = (Ok tt, s1) /\
             mb_files (st_mb s1) = mb_files (st_mb s) /\
             mb_readdir_fails (st_mb s1) = mb_readdir_fails (st_mb s) /\
             st_tr s1 = (st_tr s ++ ops)%list /\ dialog ops = []).
  { unfold ensureIpcDir, bind, dirExists.
    destruct (mb_dir (st_mb s)); cbn.
    - exists s, []. rewrite app_nil_r. auto.
    - eexists _, [OMkdir]. auto 10. }
  destruct He as (s1 & ops1 & He & Hf1 & Hr1 & Ht1 & Hd1).
  rewrite (bind_ok _ _ _ _ _ He).
  unfold bind at 1, readdirSync. cbn [st_mb log]. rewrite Hr1.
  destruct (mb_readdir_fails (st_mb s)); cbn.
  - split; [exact Hf1|]. split; [|discriminate].
    exists (ops1 ++ [OReaddir])%list. rewrite Ht1, app_assoc. split; [reflexivity|].
    unfold dialog in *. rewrite List.filter_app, Hd1. reflexivity.
  - match goal with |- context [read_questions ?l ?t] =>
      pose proof (read_questions_docs l t) as Hq; destruct (read_questions l t) as [r s'] end.
    destruct Hq as (Hmb & (ops & Ht & Hd) & Hr). cbn in Hmb, Ht, Hr.
    split; [rewrite Hmb; exact Hf1|]. split.
    + exists (ops1 ++ [OReaddir] ++ ops)%list. rewrite Ht, Ht1, <- !app_assoc.
      split; [reflexivity|]. unfold dialog in *. rewrite !List.filter_app, Hd1, Hd. reflexivity.
    + intros ds Hds. destruct (Hr ds Hds) as (ns & Hns & Hf).
      exists ns. unfold pending_names. rewrite <- Hf1. split; [exact Hns|].
      exact Hf.
Qed.

Lemma Forall2_sublist_r {A B} (P : A -> B -> Prop) (ns : list A) (ds ds' : list B) :
  Forall2 P ns ds -> ds' `sublist_of` ds ->
  exists ns', ns' `sublist_of` ns /\ Forall2 P ns' ds'.
Proof.
  intros HF Hsub. revert ns HF.
  induction Hsub as [|x l1 l2 Hs IH|x l1 l2 Hs IH]; intros ns HF.
  - inversion HF; subst. exists []. split; constructor.
  - inversion HF as [|n x' ns2 l2' Hnx HF2]; subst.
    destruct (IH ns2 HF2) as (ns' & Hns' & HF'). exists (n :: ns').
    split; [apply sublist_skip; exact Hns' | constructor; assumption].
  - inversion HF as [|n x' ns2 l2' Hnx HF2]; subst.
    destruct (IH ns2 HF2) as (ns' & Hns' & HF'). exists ns'.
    split; [apply sublist_cons; exact Hns' | exact HF'].
Qed.

Lemma Forall2_map_r {A B C} (P : A -> C -> Prop) (f : B -> C) (ns : list A) (qs : list B) :
  Forall2 P ns (map f qs) -> Forall2 (fun n q => P n (f q)) ns qs.
Proof.
  revert ns. induction qs as [|q qs IH]; intros ns HF; cbn in HF.
  - inversion HF; constructor.
  - inversion HF; subst. constructor; [assumption | apply IH; assumption].
Qed.

Lemma StronglySorted_sublist {A} (R : A -> A -> Prop) (l1 l2 : list A) :
  StronglySorted R l2 -> l1 `sublist_of` l2 -> StronglySorted R l1.
Proof.
  intros HS Hsub. induction Hsub as [|x l1 l2 Hs IH|x l1 l2 Hs IH].
  - constructor.
  - apply StronglySorted_inv in HS as [HS Hx]. constructor; [apply IH; exact HS|].
    apply Forall_forall. intros y Hy. rewrite Forall_forall in Hx. apply Hx.
    eapply elem_of_sublist; eassumption.
  - apply StronglySorted_inv in HS as [HS _]. apply IH. exact HS.
Qed.

Lemma map_fst_fmap (l : list (string * contents)) : map fst l = l.*1.
Proof. induction l as [|x l IH]; cbn; [reflexivity | rewrite IH; reflexivity]. Qed.

Lemma pending_names_sorted (m : mailbox) : StronglySorted String.le (pending_names m).
Proof. apply StronglySorted_merge_sort; apply _. Qed.

Lemma pending_names_NoDup (m : mailbox) : NoDup (pending_names m).
Proof.
  unfold pending_names. apply NoDup_ListNoDup. eapply Permutation_NoDup.
  - symmetry. apply merge_sort_Permutation.
  - apply List.NoDup_filter. rewrite map_fst_fmap. apply NoDup_ListNoDup.
    apply NoDup_fst_map_to_list.
Qed.

Lemma pending_names_question (m : mailbox) (n : string) :
  n ∈ pending_names m -> is_question_name n = true.
Proof.
  unfold pending_names. intros Hn. apply list_elem_of_In in Hn.
  apply (Permutation_in _ (merge_sort_Permutation _ _)) in Hn.
  apply filter_In in Hn as [_ Hn]. exact Hn.
Qed.

Lemma Forall2_Forall_and_l {A B} (Q : A -> Prop) (P : A -> B -> Prop) l k :
  Forall Q l -> Forall2 P l k -> Forall2 (fun x y => Q x /\ P x y) l k.
Proof.
  intros HQ HP. induction HP as [|x y l' k' Hxy HP IH]; constructor.
  - inversion HQ; subst. split; assumption.
  - inversion HQ; subst. apply IH. assumption.
Qed.

(** C9: over the whole loop, whatever the other process does between ticks,
    no id is shown twice and no id already in [processedQuestions] is shown;
    within one tick, the requests shown are those of [question_*.json] files
    taken in increasing file-name order, each shown and then answered (its
    reply written) before the next is shown. *)
Theorem responder_presents_once_in_order (s : st) :
  (forall sched : list (mailbox -> mailbox),
     exists ops, st_tr (snd (responder_loop sched s)) = (st_tr s ++ ops)%list /\
       NoDup (presented ops) /\ (forall id, id ∈ presented ops -> id ∉ st_seen s)) /\
  (let '(r, s') := responder_tick s in
   exists ops ns qs,
     st_tr s' = (st_tr s ++ ops)%list /\
     StronglySorted String.le ns /\ NoDup ns /\
     Forall2 (fun n q => is_question_name n = true /\
                         mb_files (st_mb s) !! n = Some (CDoc (JQuestion q))) ns qs /\
     (exists rest, List.concat (map block qs) = (dialog ops ++ rest)%list) /\
     (r = Ok tt -> dialog ops = List.concat (map block qs))).
Proof.
  split.
  - intros sched. destruct (responder_loop_seen sched s) as (ops & Ht & Hn & Hp & _).
    exists ops. split; [exact Ht|]. split; [exact Hn|].
    intros id Hid. apply (Hp id Hid).
  - unfold responder_tick.
    pose proof (getPendingQuestions_docs s) as Hg.
    unfold bind at 1.
    destruct (getPendingQuestions s) as [[ds|e|] s1];
      destruct Hg as (Hf1 & (ops1 & Ht1 & Hd1) & Hr1).
    + pose proof (handle_questions_dialog ds s1) as Hh.
      destruct (handle_questions ds s1) as [r s'].
      destruct Hh as (ops2 & qs & Ht2 & Hsub & Hpre & Hok).
      destruct (Hr1 ds eq_refl) as (ns & Hns & HF).
      destruct (Forall2_sublist_r _ _ _ _ HF Hsub) as (ns' & Hns' & HF').
      apply Forall2_map_r in HF'.
      assert (Hsub' : ns' `sublist_of` pending_names (st_mb s))
        by (etransitivity; eassumption).
      exists (ops1 ++ ops2)%list, ns', qs.
      split; [rewrite Ht2, Ht1, app_assoc; reflexivity|].
      split; [eapply StronglySorted_sublist; [apply pending_names_sorted | exact Hsub']|].
      split; [eapply sublist_NoDup; [apply pending_names_NoDup | exact Hsub']|].
      assert (Hd : dialog (ops1 ++ ops2) = dialog ops2)
        by (unfold dialog in *; rewrite List.filter_app, Hd1; reflexivity).
      rewrite Hd. split; [|split; [exact Hpre | exact Hok]].
      apply Forall2_Forall_and_l; [|exact HF'].
      apply Forall_forall. intros n Hn. apply (pending_names_question (st_mb s)).
      eapply elem_of_sublist; [|exact Hsub']. exact Hn.
    + exists ops1, [], []. split; [exact Ht1|].
      split; [constructor|]. split; [constructor|]. split; [constructor|].
      split; [exists []; rewrite Hd1; reflexivity | discriminate].
    + exists ops1, [], []. split; [exact Ht1|].
      split; [constructor|]. split; [constructor|]. split; [constructor|].
      split; [exists []; rewrite Hd1; reflexivity | discriminate].
Qed.

(* ================================================================== *)
(** * Runs on concrete states *)

(** C1 on a sample: the human types "yes" and an empty line. *)
Lemma answered_reply_round_trip_witness :
  let s := start_st ex_mb ["yes"; EmptyString] in
  let s' := snd (promptUser (JQuestion ex_q) s) in
  promptUser (JQuestion ex_q) s = (Ok tt, s') /\
  mb_files (st_mb s') !! response_file (q_id ex_q) = Some (CDoc (JResponse ex_reply)) /\
  r_responded ex_reply = true /\
  exists lines rest,
    collect [] 0 (st_input s) = Some (lines, rest) /\
    r_response ex_reply = joined_response lines.
Proof.
  intros s s'.
  assert (H1 : promptUser (JQuestion ex_q) s = (Ok tt, s')) by reflexivity.
  assert (H2 : mb_files (st_mb s') !! response_file (q_id ex_q) =
               Some (CDoc (JResponse ex_reply))) by reflexivity.
  assert (H3 : r_responded ex_reply = true) by reflexivity.
  split; [exact H1|]. split; [exact H2|]. split; [exact H3|].
  destruct (answered_reply_round_trip ex_q s s' ex_reply H1 H2 H3)
    as (lines & rest & Hc & Hr & _).
  exists lines, rest. split; [exact Hc | exact Hr].
Defined.

(** C2 on a sample: one idle tick, then the reply arrives; at the next tick
    the signal is aborted, or the deadline has passed, or it is reached
    exactly. *)
Lemma abort_wins_race_witness :
  let s := start_st ex_mb [] in
  let s1 := snd (poll_loop 300 (question_file "q1") (response_file "q1") [ex_wait_tick] s) in
  poll_loop 300 (question_file "q1") (response_file "q1") [ex_wait_tick] s = (Ok None, s1) /\
  te_aborted ex_abort_reply_tick = true /\
  fst (poll_loop 300 (question_file "q1") (response_file "q1")
         ([ex_wait_tick] ++ ex_abort_reply_tick :: []) s) = Ok (Some aborted_outcome) /\
  te_aborted ex_late_reply_tick = false /\
  (te_elapsed ex_late_reply_tick > Z.of_N 300 * 1000)%Z /\
  fst (poll_loop 300 (question_file "q1") (response_file "q1")
         ([ex_wait_tick] ++ ex_late_reply_tick :: []) s) = Ok (Some (timeout_outcome 300)) /\
  te_aborted ex_deadline_reply_tick = false /\
  (te_elapsed ex_deadline_reply_tick <= Z.of_N 300 * 1000)%Z /\
  mb_files (te_other ex_deadline_reply_tick (st_mb s1)) !! response_file "q1" =
    Some (CDoc (JResponse ex_reply)) /\
  fst (poll_loop 300 (question_file "q1") (response_file "q1")
         ([ex_wait_tick] ++ ex_deadline_reply_tick :: []) s) =
    Ok (Some (answered_outcome "yes")).
Proof.
  intros s s1.
  assert (H1 : poll_loop 300 (question_file "q1") (response_file "q1") [ex_wait_tick] s
               = (Ok None, s1)) by (vm_compute; reflexivity).
  assert (H2 : te_aborted ex_abort_reply_tick = true) by reflexivity.
  assert (H3 : te_aborted ex_late_reply_tick = false) by reflexivity.
  assert (H4 : (te_elapsed ex_late_reply_tick > Z.of_N 300 * 1000)%Z) by (cbn; lia).
  assert (H5 : te_aborted ex_deadline_reply_tick = false) by reflexivity.
  assert (H6 : (te_elapsed ex_deadline_reply_tick <= Z.of_N 300 * 1000)%Z) by (cbn; lia).
  assert (H7 : mb_files (te_other ex_deadline_reply_tick (st_mb s1)) !! response_file "q1" =
               Some (CDoc (JResponse ex_reply))) by (vm_compute; reflexivity).
  destruct (abort_wins_race 300 "q1" [ex_wait_tick] ex_abort_reply_tick [] s s1 H1 H2)
    as [Ha [Ht Hr]].
  split; [exact H1|]. split; [exact H2|]. split.
  { destruct (poll_loop 300 (question_file "q1") (response_file "q1")
                ([ex_wait_tick] ++ ex_abort_reply_tick :: []) s) as [r s'].
    destruct Ha as [Hra _]. exact Hra. }
  split; [exact H3|]. split; [exact H4|]. split.
  { pose proof (Ht ex_late_reply_tick H3 H4) as Ht'.
    destruct (poll_loop 300 (question_file "q1") (response_file "q1")
                ([ex_wait_tick] ++ ex_late_reply_tick :: []) s) as [r s'].
    destruct Ht' as [Hrt _]. exact Hrt. }
  split; [exact H5|]. split; [exact H6|]. split; [exact H7|].
  exact (Hr ex_deadline_reply_tick (JResponse ex_reply) H5 H6 H7).
Defined.

(** C4 on a sample: the human types "Cancel" and an empty line. *)
Lemma keyword_cancel_witness :
  let s := start_st ex_mb ["Cancel"; EmptyString] in
  collect [] 0 (st_input s) = Some (["Cancel"], []) /\
  to_lower (joined_response ["Cancel"]) = "cancel" /\
  mb_write_fails (st_mb s) = false /\
  fst (promptUser (JQuestion ex_q) s) = Ok tt.
Proof.
  intros s.
  assert (H1 : collect [] 0 (st_input s) = Some (["Cancel"], [])) by reflexivity.
  assert (H2 : to_lower (joined_response ["Cancel"]) = "cancel") by reflexivity.
  assert (H3 : mb_write_fails (st_mb s) = false) by reflexivity.
  split; [exact H1|]. split; [exact H2|]. split; [exact H3|].
  pose proof (keyword_cancel ex_q s ["Cancel"] [] H1 H2 H3) as H.
  destruct (promptUser (JQuestion ex_q) s) as [r s'].
  destruct H as [Hr _]. exact Hr.
Defined.

(** C5 on a sample: the reply file is gone when the cleanup runs. *)
Lemma reply_cleanup_missing_reply_throws_witness :
  let s := start_st ex_mb [] in
  mb_files (st_mb s) !! response_file "q1" = None /\
  fst (reply_cleanup (question_file "q1") (response_file "q1") s) =
    Err (ENOENT (response_file "q1")).
Proof.
  intros s.
  assert (H : mb_files (st_mb s) !! response_file "q1" = None) by reflexivity.
  split; [exact H|]. exact (reply_cleanup_missing_reply_throws "q1" s H).
Defined.

(** C7 on a sample: the listing fails at the first tick. *)
Lemma responder_io_failure_exits_witness :
  let s := start_st ex_mb [] in
  responder_loop [] s = (Ok tt, s) /\
  fst (run_responder ([] ++ ex_break_readdir :: []) s) = Exited 1.
Proof.
  intros s.
  assert (H : responder_loop [] s = (Ok tt, s)) by reflexivity.
  split; [exact H|].
  destruct (responder_io_failure_exits [] ex_break_readdir [] s s H) as (_ & H2 & _).
  apply H2. reflexivity.
Defined.

(** C8 on a sample: the reply is still being written. *)
Lemma unparsable_reply_not_consumed_witness :
  let s := start_st ex_mb_partial [] in
  (0 <= Z.of_N 300 * 1000)%Z /\
  mb_files (st_mb s) !! response_file "q1" = Some CPartial /\
  poll_tick false 0 300 (question_file "q1") (response_file "q1") s =
    (Ok Next, log (ORead (response_file "q1")) (log (OExists (response_file "q1")) s)).
Proof.
  intros s.
  assert (H1 : (0 <= Z.of_N 300 * 1000)%Z) by lia.
  assert (H2 : mb_files (st_mb s) !! response_file "q1" = Some CPartial) by reflexivity.
  split; [exact H1|]. split; [exact H2|].
  exact (proj1 (unparsable_reply_not_consumed 0 300 _ _ s H1 H2)).
Defined.

(** C10 on a sample: the call is aborted while a reply is already there. *)
Lemma give_up_leaves_reply_witness :
  let s := start_st ex_mb_replied [] in
  let s' := snd (poll_tick true 0 300 (question_file "q1") (response_file "q1") s) in
  poll_tick true 0 300 (question_file "q1") (response_file "q1") s =
    (Ok (Done aborted_outcome), s') /\
  mb_files (st_mb s') = delete (question_file "q1") (mb_files (st_mb s)) /\
  mb_files (st_mb s') !! response_file "q1" = Some (CDoc (JResponse ex_reply)).
Proof.
  intros s s'.
  assert (H : poll_tick true 0 300 (question_file "q1") (response_file "q1") s =
              (Ok (Done aborted_outcome), s')) by reflexivity.
  split; [exact H|].
  destruct (give_up_leaves_reply true 0 300 "q1" s s' aborted_outcome H (or_introl eq_refl))
    as [Hd Hr].
  split; [exact Hd|]. rewrite Hr. reflexivity.
Defined.

(* ================================================================== *)
(** * Further properties of the code *)

(* ------------------------------------------------------------------ *)
(** ** Strings *)

Lemma append_cons (c : ascii) (a b : string) :
  String.append (String c a) b = String c (String.append a b).
Proof. reflexivity. Qed.

Lemma append_nil_l (b : string) : String.append EmptyString b = b.
Proof. reflexivity. Qed.

(** Whether [c] occurs in [s]. *)
Fixpoint has_char (c : ascii) (s : string) : bool :=
  match s with
  | EmptyString => false
  | String c' s' => Ascii.eqb c' c || has_char c s'
  end.

Lemma has_char_append (c : ascii) (a b : string) :
  has_char c (String.append a b) = has_char c a || has_char c b.
Proof.
  induction a as [|c' a IH]; [reflexivity|]. simpl. rewrite IH. apply orb_assoc.
Qed.

Lemma pretty_N_char_not_us (k : N) : Ascii.eqb (pretty_N_char k) "_" = false.
Proof. unfold pretty_N_char. repeat case_match; reflexivity. Qed.

Lemma pretty_N_go_no_us (x : N) (s : string) :
  has_char "_" (pretty_N_go x s) = has_char "_" s.
Proof.
  revert s. induction (N.lt_wf_0 x) as [x _ IH]; intros s.
  destruct (decide (x = 0)%N) as [->|Hx]; [reflexivity|].
  rewrite pretty_N_go_step by lia. rewrite IH by (apply N.div_lt; lia).
  cbn. rewrite pretty_N_char_not_us. reflexivity.
Qed.

Lemma pretty_no_us (x : N) : has_char "_" (pretty x) = false.
Proof.
  unfold pretty, pretty_N. case_decide; [reflexivity|].
  rewrite pretty_N_go_no_us. reflexivity.
Qed.

Lemma append_us_inj (a b c d : string) :
  has_char "_" a = false -> has_char "_" c = false ->
  String.append a (String "_" b) = String.append c (String "_" d) -> a = c /\ b = d.
Proof.
  revert c. induction a as [|x a IH]; intros [|y c] Ha Hc H;
    rewrite ?append_cons, ?append_nil_l in H; cbn [has_char] in Ha, Hc.
  - injection H as H. split; [reflexivity | exact H].
  - injection H as Hy _. subst y. rewrite Ascii.eqb_refl in Hc. discriminate.
  - injection H as Hx _. subst x. rewrite Ascii.eqb_refl in Ha. discriminate.
  - apply orb_false_iff in Ha as [_ Ha]. apply orb_false_iff in Hc as [_ Hc].
    injection H as <- H. destruct (IH c Ha Hc H) as [-> ->]. split; reflexivity.
Qed.

Lemma append_assoc_str (a b c : string) :
  String.append a (String.append b c) = String.append (String.append a b) c.
Proof. induction a as [|x a IH]; [reflexivity|]. rewrite !append_cons, IH. reflexivity. Qed.

Lemma prefix_append (a b : string) : String.prefix a (String.append a b) = true.
Proof.
  induction a as [|x a IH]; [destruct b; reflexivity|].
  rewrite append_cons. cbn [String.prefix].
  destruct (ascii_dec x x) as [_|Hx]; [exact IH | congruence].
Qed.

Lemma length_append (a b : string) :
  String.length (String.append a b) = String.length a + String.length b.
Proof. induction a as [|c a IH]; simpl; [reflexivity | rewrite IH; reflexivity]. Qed.

Lemma append_inj_r (a b s : string) :
  String.append a s = String.append b s -> a = b.
Proof.
  revert b. induction a as [|x a IH]; intros [|y b] H;
    rewrite ?append_cons, ?append_nil_l in H.
  - reflexivity.
  - apply (f_equal String.length) in H. simpl in H. rewrite length_append in H. lia.
  - apply (f_equal String.length) in H. simpl in H. rewrite length_append in H. lia.
  - injection H as <- H. f_equal. apply IH. exact H.
Qed.

Lemma substring_append (a b : string) (k m : nat) :
  String.substring (String.length a + k) m (String.append a b) = String.substring k m b.
Proof. induction a as [|c a IH]; [reflexivity|]. exact IH. Qed.

Lemma ends_with_append (a suffix : string) :
  ends_with suffix (String.append a suffix) = true.
Proof.
  unfold ends_with. rewrite length_append.
  replace (String.length a + String.length suffix - String.length suffix)
    with (String.length a + 0) by lia.
  rewrite substring_append.
  apply andb_true_intro. split; [apply Nat.leb_le; lia|].
  apply String.eqb_eq.
  induction suffix as [|c s IH]; [reflexivity|]. cbn. f_equal. exact IH.
Qed.

Lemma question_file_is_question_name (id : string) :
  is_question_name (question_file id) = true.
Proof.
  unfold is_question_name, question_file.
  apply andb_true_intro. split; [apply prefix_append|].
  rewrite append_assoc_str. apply ends_with_append.
Qed.

(** X1: an id made by [generateQuestionId] determines its timestamp and its
    random part: two calls give the same id only when both agree, so ids made
    at different milliseconds always differ. *)
Theorem generateQuestionId_inj (t1 t2 : N) (r1 r2 : string) :
  generateQuestionId t1 r1 = generateQuestionId t2 r2 <-> t1 = t2 /\ r1 = r2.
Proof.
  split; [|intros [-> ->]; reflexivity].
  unfold generateQuestionId. cbn [String.append]. intros H.
  injection H as H.
  destruct (append_us_inj _ _ _ _ (pretty_no_us t1) (pretty_no_us t2) H) as [Ht Hr].
  split; [apply (inj pretty) in Ht; exact Ht | exact Hr].
Qed.

(** X2: the Responder's file filter accepts every request file the Requester
    writes and no reply file; distinct ids give distinct request files and
    distinct reply files, and a request file is never a reply file. *)
Theorem mailbox_file_names (id id' : string) :
  is_question_name (question_file id) = true /\
  is_question_name (response_file id') = false /\
  question_file id <> response_file id' /\
  (question_file id = question_file id' <-> id = id') /\
  (response_file id = response_file id' <-> id = id').
Proof.
  split; [|split; [reflexivity|split; [|split]]].
  - apply question_file_is_question_name.
  - unfold question_file, response_file. intros H. inversion H.
  - unfold question_file. split; [|intros ->; reflexivity]. intros H.
    apply (inj (String.append "question_")) in H. apply append_inj_r in H. exact H.
  - unfold response_file. split; [|intros ->; reflexivity]. intros H.
    apply (inj (String.append "response_")) in H. apply append_inj_r in H. exact H.
Qed.

(* ------------------------------------------------------------------ *)
(** ** Listing and reading the requests *)

(** What [JSON.parse(fs.readFileSync(f))] gives for file [f], when it
    succeeds. *)
Definition parsed (files : gmap string contents) (f : string) : option doc :=
  match files !! f with
  | Some (CDoc d) => Some d
  | _ => None
  end.

Lemma read_questions_spec (files : list string) (s : st) :
  read_questions files s =
    (Ok (omap (parsed (mb_files (st_mb s))) files),
     {| st_mb := st_mb s; st_tr := (st_tr s ++ map ORead files)%list;
        st_seen := st_seen s; st_input := st_input s; st_now := st_now s |}).
Proof.
  revert s. induction files as [|f files IH]; intros s.
  - destruct s; cbn. rewrite app_nil_r. reflexivity.
  - cbn [read_questions]. unfold bind at 1, catch, bind at 1, readFileSync.
    cbn [log st_mb]. cbn [omap]. unfold parsed at 1.
    destruct (mb_files (st_mb s) !! f) as [[d|]|] eqn:Hf; cbn [json_parse];
      unfold ret, throw, bind; rewrite IH; cbn; rewrite ?Hf;
      rewrite <- ?app_assoc; reflexivity.
Qed.

Lemma ensureIpcDir_spec (s : st) :
  ensureIpcDir s =
    (Ok tt,
     {| st_mb := {| mb_dir := true; mb_files := mb_files (st_mb s);
                    mb_readdir_fails := mb_readdir_fails (st_mb s);
                    mb_write_fails := mb_write_fails (st_mb s) |};
        st_tr := (st_tr s ++ if mb_dir (st_mb s) then [] else [OMkdir])%list;
        st_seen := st_seen s; st_input := st_input s; st_now := st_now s |}).
Proof.
  destruct s as [[[] f rf wf] tr seen inp t]; cbn; [|reflexivity].
  rewrite app_nil_r. reflexivity.
Qed.

Lemma getPendingQuestions_eq (s : st) :
  mb_readdir_fails (st_mb s) = false ->
  getPendingQuestions s =
    (Ok (omap (parsed (mb_files (st_mb s))) (pending_names (st_mb s))),
     {| st_mb := {| mb_dir := true; mb_files := mb_files (st_mb s);
                    mb_readdir_fails := mb_readdir_fails (st_mb s);
                    mb_write_fails := mb_write_fails (st_mb s) |};
        st_tr := (st_tr s ++ (if mb_dir (st_mb s) then [] else [OMkdir]) ++
                  OReaddir :: map ORead (pending_names (st_mb s)))%list;
        st_seen := st_seen s; st_input := st_input s; st_now := st_now s |}).
Proof.
  intros Hrd. unfold getPendingQuestions, bind at 1. rewrite ensureIpcDir_spec.
  unfold bind at 1, readdirSync. cbn [log st_mb mb_readdir_fails]. rewrite Hrd.
  rewrite read_questions_spec. cbn. rewrite <- !app_assoc. reflexivity.
Qed.

(** X4: when the directory can be listed, [getPendingQuestions] returns the
    parsed contents of exactly the [question_*.json] files that exist and
    parse, in increasing code-unit order of their names (files that do not
    parse are skipped); it reads each such file once, creates the directory if
    it is missing, and changes no file. *)
Theorem getPendingQuestions_spec (s : st) :
  mb_readdir_fails (st_mb s) = false ->
  StronglySorted String.le (pending_names (st_mb s)) /\
  let '(r, s') := getPendingQuestions s in
  r = Ok (omap (parsed (mb_files (st_mb s))) (pending_names (st_mb s))) /\
  mb_files (st_mb s') = mb_files (st_mb s) /\ mb_dir (st_mb s') = true /\
  st_tr s' = (st_tr s ++ (if mb_dir (st_mb s) then [] else [OMkdir]) ++
              OReaddir :: map ORead (pending_names (st_mb s)))%list.
Proof.
  intros Hrd. split; [apply pending_names_sorted|].
  rewrite (getPendingQuestions_eq s Hrd). cbn. repeat split.
Qed.

(* ------------------------------------------------------------------ *)
(** ** The Requester's [execute] *)

Lemma consume_reply_not_wait (qf rf : string) (s : st) :
  fst (consume_reply qf rf s) <> Wait.
Proof.
  unfold consume_reply, bind at 1, readFileSync. cbn [log st_mb].
  destruct (mb_files (st_mb s) !! rf) as [[d|]|]; cbn; try discriminate.
  unfold bind at 1, reply_cleanup, bind at 1. rewrite unlink_if_exists_spec.
  unfold unlinkSync. cbn.
  destruct (_ !! rf); cbn; [|discriminate].
  destruct (doc_responded d); discriminate.
Qed.

Lemma poll_tick_ok (aborted : bool) (elapsed : Z) (timeoutSec : N) (qf rf : string)
    (s : st) :
  exists t, fst (poll_tick aborted elapsed timeoutSec qf rf s) = Ok t.
Proof.
  unfold poll_tick. destruct aborted; [|destruct (bool_decide _)].
  - unfold bind. rewrite unlink_if_exists_spec. eexists. reflexivity.
  - unfold bind. rewrite unlink_if_exists_spec. eexists. reflexivity.
  - unfold check_reply, bind at 1, existsSync. cbn.
    destruct (bool_decide _); [|eexists; reflexivity].
    unfold catch. pose proof (consume_reply_not_wait qf rf (log (OExists rf) s)) as Hw.
    unfold bind at 1.
    destruct (consume_reply qf rf (log (OExists rf) s)) as [[o|e|] s1]; cbn in *.
    + eexists; reflexivity.
    + eexists; reflexivity.
    + congruence.
Qed.

Lemma poll_loop_ok (timeoutSec : N) (qf rf : string) (sched : list tick_env) (s : st) :
  exists r, fst (poll_loop timeoutSec qf rf sched s) = Ok r.
Proof.
  revert s. induction sched as [|e sched IH]; intros s; [eexists; reflexivity|].
  rewrite poll_loop_cons.
  destruct (poll_tick_ok (te_aborted e) (te_elapsed e) timeoutSec qf rf
              (set_mb (te_other e (st_mb s)) s)) as [t Ht].
  destruct (poll_tick _ _ _ _ _ _) as [r s1]. cbn in Ht. subst r.
  destruct t; [eexists; reflexivity | apply IH].
Qed.

(** The request object [execute] writes. *)
Definition request_of (questionId question : string) (title : option string)
    (sessionID messageID : string) (t : Z) : Question :=
  {| q_id := questionId; q_question := question; q_title := title;
     q_sessionID := sessionID; q_messageID := messageID; q_timestamp := t |}.

(** The state [execute] enters its polling loop with. *)
Lemma execute_eq (questionId question : string) (title : option string)
    (timeout : option N) (sessionID messageID : string)
    (sched : list tick_env) (s : st) :
  execute questionId question title timeout sessionID messageID sched s =
    let s0 := snd (ensureIpcDir s) in
    let s1 := log (OWrite (question_file questionId)) s0 in
    if mb_write_fails (st_mb s) then (Err EIO, s1)
    else catch (poll_loop (default 300%N timeout) (question_file questionId)
                          (response_file questionId) sched)
               (fun error =>
                  let* _ := unlink_if_exists (question_file questionId) in
                  let* _ := unlink_if_exists (response_file questionId) in
                  throw error)
               (set_mb (set_files
                  (<[question_file questionId :=
                     CDoc (JQuestion (request_of questionId question title
                                        sessionID messageID (st_now s)))]>
                     (mb_files (st_mb s1))) (st_mb s1)) s1).
Proof.
  unfold execute, bind at 1. rewrite ensureIpcDir_spec. cbn.
  unfold bind at 1, now. cbn. unfold bind at 1, writeFileSync. cbn.
  destruct (mb_write_fails (st_mb s)); reflexivity.
Qed.

Lemma pending_names_elem (m : mailbox) (n : string) :
  is_question_name n = true -> is_Some (mb_files m !! n) -> n ∈ pending_names m.
Proof.
  intros Hq [c Hc]. unfold pending_names. apply list_elem_of_In.
  apply (Permutation_in _ (Permutation_sym (merge_sort_Permutation _ _))).
  apply filter_In. split; [|exact Hq].
  apply list_elem_of_In. rewrite map_fst_fmap. apply list_elem_of_fmap.
  exists (n, c). split; [reflexivity|]. apply elem_of_map_to_list. exact Hc.
Qed.

(** X7: before its first tick, [execute] has written its request file, holding
    the request object built from its arguments, the generated id and the
    current time, and changed no other file; the Responder's next listing of
    the mailbox returns that request. *)
Theorem execute_request_listed (questionId question : string) (title : option string)
    (timeout : option N) (sessionID messageID : string) (s : st) :
  mb_write_fails (st_mb s) = false ->
  mb_readdir_fails (st_mb s) = false ->
  let q := request_of questionId question title sessionID messageID (st_now s) in
  let '(r, s') := execute questionId question title timeout sessionID messageID [] s in
  r = Ok None /\
  mb_files (st_mb s') = <[question_file questionId := CDoc (JQuestion q)]> (mb_files (st_mb s)) /\
  exists ds, fst (getPendingQuestions s') = Ok ds /\ JQuestion q ∈ ds.
Proof.
  intros Hw Hrd q. rewrite execute_eq, ensureIpcDir_spec.
  cbn -[getPendingQuestions]. rewrite Hw. cbn -[getPendingQuestions].
  split; [reflexivity|]. split; [reflexivity|].
  rewrite getPendingQuestions_eq by exact Hrd. cbn [fst].
  eexists. split; [reflexivity|].
  apply list_elem_of_omap. exists (question_file questionId). split.
  - apply pending_names_elem; [apply question_file_is_question_name|].
    unfold log, set_mb, set_files; cbn [st_mb mb_files].
    rewrite lookup_insert_eq. eexists; reflexivity.
  - unfold parsed, log, set_mb, set_files; cbn [st_mb mb_files].
    rewrite lookup_insert_eq. reflexivity.
Qed.

Lemma poll_tick_done_files (aborted : bool) (elapsed : Z) (timeoutSec : N)
    (qf rf : string) (s s' : st) (o : outcome) :
  qf <> rf ->
  poll_tick aborted elapsed timeoutSec qf rf s = (Ok (Done o), s') ->
  mb_files (st_mb s') !! qf = None /\
  (o_cancelled o = false \/ o = user_cancelled_outcome -> mb_files (st_mb s') !! rf = None).
Proof.
  intros Hne H. destruct aborted.
  - unfold poll_tick, bind in H. rewrite unlink_if_exists_spec in H.
    cbn in H. injection H as <- <-. cbn. rewrite lookup_delete_eq.
    split; [reflexivity | intros [Hc|Hc]; discriminate].
  - destruct (bool_decide (elapsed > Z.of_N timeoutSec * 1000)%Z) eqn:Hb.
    + unfold poll_tick, bind in H. rewrite Hb, unlink_if_exists_spec in H.
      cbn in H. injection H as <- <-. cbn. rewrite lookup_delete_eq.
      split; [reflexivity | intros [Hc|Hc]; discriminate].
    + apply bool_decide_eq_false in Hb.
      assert (Hel : (elapsed <= Z.of_N timeoutSec * 1000)%Z) by lia.
      destruct (mb_files (st_mb s) !! rf) as [[d|]|] eqn:Hrf.
      * rewrite (poll_tick_consume elapsed timeoutSec qf rf s d Hne Hel Hrf) in H.
        injection H as _ <-. cbn.
        rewrite lookup_delete_ne by congruence. rewrite !lookup_delete_eq.
        split; reflexivity.
      * rewrite (poll_tick_reply elapsed timeoutSec qf rf s CPartial Hel Hrf) in H.
        unfold catch, consume_reply, bind, readFileSync in H. cbn in H.
        rewrite Hrf in H. cbn in H. discriminate.
      * unfold poll_tick in H. rewrite bool_decide_false in H by lia.
        unfold check_reply, bind, existsSync in H. rewrite Hrf in H.
        cbn in H. discriminate.
Qed.

Lemma poll_loop_done_files (timeoutSec : N) (qf rf : string) (sched : list tick_env)
    (s s' : st) (o : outcome) :
  qf <> rf ->
  poll_loop timeoutSec qf rf sched s = (Ok (Some o), s') ->
  mb_files (st_mb s') !! qf = None /\
  (o_cancelled o = false \/ o = user_cancelled_outcome -> mb_files (st_mb s') !! rf = None).
Proof.
  intros Hne. revert s. induction sched as [|e sched IH]; intros s H; [discriminate|].
  rewrite poll_loop_cons in H.
  destruct (poll_tick _ _ _ _ _ _) as [[[o'|]| |] s1] eqn:E; try discriminate.
  - injection H as <- <-. exact (poll_tick_done_files _ _ _ _ _ _ _ _ Hne E).
  - exact (IH s1 H).
Qed.

(** X8: when [execute] returns an object, its request file is gone from the
    mailbox; when that object comes from a reply (an answer, or the human's
    cancellation), the reply file is gone too. *)
Theorem execute_cleans_up (questionId question : string) (title : option string)
    (timeout : option N) (sessionID messageID : string) (sched : list tick_env)
    (s s' : st) (o : outcome) :
  execute questionId question title timeout sessionID messageID sched s = (Ok (Some o), s') ->
  mb_files (st_mb s') !! question_file questionId = None /\
  (o_cancelled o = false \/ o = user_cancelled_outcome ->
   mb_files (st_mb s') !! response_file questionId = None).
Proof.
  intros H. rewrite execute_eq in H. cbn zeta in H.
  destruct (mb_write_fails (st_mb s)); [discriminate|].
  unfold catch in H.
  match type of H with context [poll_loop ?T ?q ?r ?l ?s1] =>
    destruct (poll_loop_ok T q r l s1) as [r0 Hr0];
    destruct (poll_loop T q r l s1) as [r1 s2] eqn:E end.
  cbn in Hr0. subst r1. injection H as -> ->.
  exact (poll_loop_done_files _ _ _ _ _ _ _ (question_response_file_ne questionId) E).
Qed.

(** X9: the deadline of [execute] is its [timeout] argument, or 300 seconds
    when it is absent.  Take any tick [e] that is not aborted and is reached
    after earlier ticks that found no usable reply, with a parsed reply in the
    mailbox when [e] starts.  If at most that many milliseconds have passed,
    exactly the deadline included, [e] consumes the reply and returns what it
    says; if more have passed, [e] returns the timeout outcome instead. *)
Theorem execute_deadline (questionId question : string) (title : option string)
    (timeout : option N) (sessionID messageID : string)
    (before after : list tick_env) (e : tick_env) (s s1 : st) (d : doc) :
  execute questionId question title timeout sessionID messageID before s = (Ok None, s1) ->
  te_aborted e = false ->
  mb_files (te_other e (st_mb s1)) !! response_file questionId = Some (CDoc d) ->
  fst (execute questionId question title timeout sessionID messageID
         (before ++ e :: after) s) =
    if bool_decide (te_elapsed e > Z.of_N (default 300%N timeout) * 1000)%Z
    then Ok (Some (timeout_outcome (default 300%N timeout)))
    else Ok (Some (if doc_responded d then answered_outcome (doc_response d)
                   else user_cancelled_outcome)).
Proof.
  intros H Ha Hrf. rewrite execute_eq in H |- *. cbn zeta in H |- *.
  destruct (mb_write_fails (st_mb s)); [discriminate|].
  unfold catch in H |- *.
  match type of H with context [poll_loop ?T ?q ?r ?l ?s0] =>
    destruct (poll_loop_ok T q r l s0) as [r0 Hr0];
    destruct (poll_loop T q r l s0) as [r1 s2] eqn:E end.
  cbn in Hr0. subst r1. injection H as -> ->.
  rewrite poll_loop_app, E, poll_loop_cons, Ha.
  destruct (bool_decide _) eqn:Hd.
  - apply bool_decide_eq_true in Hd.
    unfold poll_tick. rewrite bool_decide_true by exact Hd.
    unfold bind. rewrite unlink_if_exists_spec. reflexivity.
  - apply bool_decide_eq_false in Hd.
    rewrite (poll_tick_consume _ _ _ _ _ d);
      [reflexivity | apply question_response_file_ne | lia | exact Hrf].
Qed.

(* ------------------------------------------------------------------ *)
(** ** What the Responder prints and sends *)

Lemma split_not_nil (sep : ascii) (s : string) : split sep s <> [].
Proof.
  induction s as [|c s IH]; cbn; [discriminate|].
  destruct (Ascii.eqb c sep); [discriminate|].
  destruct (split sep s); discriminate.
Qed.

Lemma concat_cons_char (sep : string) (c : ascii) (p : string) (ps : list string) :
  String.concat sep (String c p :: ps) = String c (String.concat sep (p :: ps)).
Proof. destruct ps; reflexivity. Qed.

Lemma split_concat (s : string) :
  String.concat (String "010" EmptyString) (split "010" s) = s.
Proof.
  induction s as [|c s IH]; [reflexivity|]. cbn [split].
  pose proof (split_not_nil "010" s) as Hn.
  destruct (Ascii.eqb c "010") eqn:Hc.
  - apply Ascii.eqb_eq in Hc. subst c.
    destruct (split "010" s) as [|p ps]; [congruence|].
    change (String.concat (String "010" EmptyString) (EmptyString :: p :: ps))
      with (String "010" (String.concat (String "010" EmptyString) (p :: ps))).
    rewrite IH. reflexivity.
  - destruct (split "010" s) as [|p ps]; [congruence|].
    rewrite concat_cons_char, IH. reflexivity.
Qed.

Lemma split_no_sep (sep : ascii) (s : string) :
  Forall (fun p => has_char sep p = false) (split sep s).
Proof.
  induction s as [|c s IH]; cbn [split]; [repeat constructor|].
  destruct (Ascii.eqb c sep) eqn:Hc; [constructor; [reflexivity | exact IH]|].
  destruct (split sep s) as [|p ps]; [repeat constructor; cbn; rewrite Hc; reflexivity|].
  inversion IH as [|p' ps' Hp Hps]; subst.
  constructor; [cbn; rewrite Hc, Hp; reflexivity | exact Hps].
Qed.

Lemma substring_all (s : string) : String.substring 0 (String.length s) s = s.
Proof. induction s as [|c s IH]; [reflexivity|]. cbn. rewrite IH. reflexivity. Qed.

(** X10: [printQuestion] prints the question text one console line per line of
    the text: the printed body is a contiguous run of its output, each body
    line is five spaces followed by a piece of the text with no newline in
    it, and removing the indent and joining the pieces with newlines gives
    back the text exactly. *)
Theorem printQuestion_shows_text (formatTime : Z -> string) (q : Question) :
  (exists pre post,
     printQuestion_lines formatTime q = (pre ++ printQuestion_body q ++ post)%list) /\
  Forall (fun l => String.prefix "     " l = true /\ has_char "010" l = false)
    (printQuestion_body q) /\
  String.concat (String "010" EmptyString)
    (map (fun l => String.substring 5 (String.length l - 5) l) (printQuestion_body q))
  = q_question q.
Proof.
  split; [|split].
  - unfold printQuestion_lines.
    match goal with |- exists _ _, (?A ++ ?T ++ ?B ++ printQuestion_body q ++ ?C)%list = _ =>
      exists (A ++ T ++ B)%list, C end.
    rewrite <- !app_assoc. reflexivity.
  - unfold printQuestion_body. apply Forall_map.
    eapply Forall_impl; [apply split_no_sep|]. intros p Hp. cbn beta.
    split; [apply prefix_append|]. rewrite has_char_append. exact Hp.
  - unfold printQuestion_body. rewrite map_map.
    rewrite <- (split_concat (q_question q)) at 2. rewrite <- (map_id (split _ _)) at 2.
    f_equal. apply map_ext. intros p. cbn beta.
    rewrite length_append. cbn [String.length].
    replace (5 + String.length p - 5) with (String.length p) by lia.
    change 5 with (String.length "     " + 0). rewrite substring_append.
    apply substring_all.
Qed.

Lemma poll_loop_outcome (timeoutSec : N) (qf rf : string) (sched : list tick_env)
    (s s' : st) (o : outcome) :
  poll_loop timeoutSec qf rf sched s = (Ok (Some o), s') -> requester_outcome timeoutSec o.
Proof.
  revert s. induction sched as [|e sched IH]; intros s H; [discriminate|].
  rewrite poll_loop_cons in H.
  destruct (poll_tick _ _ _ _ _ _) as [[[o'|]| |] s1] eqn:E; try discriminate.
  - injection H as <- _.
    destruct (poll_tick_outcome _ _ _ _ _ _ _ _ E) as [Hn|(o2 & Ho2 & Hr)];
      [discriminate|]. injection Ho2 as ->. exact Hr.
  - exact (IH s1 H).
Qed.

(** X12: every object [execute] returns has [responded] equal to the negation
    of [cancelled], carries [reason] exactly when it is cancelled, and has an
    empty [response] unless it is answered. *)
Theorem execute_outcome_shape (questionId question : string) (title : option string)
    (timeout : option N) (sessionID messageID : string) (sched : list tick_env)
    (s s' : st) (o : outcome) :
  execute questionId question title timeout sessionID messageID sched s = (Ok (Some o), s') ->
  o_responded o = negb (o_cancelled o) /\
  (is_Some (o_reason o) <-> o_cancelled o = true) /\
  (o_responded o = false -> o_response o = EmptyString).
Proof.
  intros H. rewrite execute_eq in H. cbn zeta in H.
  destruct (mb_write_fails (st_mb s)); [discriminate|].
  unfold catch in H.
  match type of H with context [poll_loop ?T ?q ?r ?l ?s1] =>
    destruct (poll_loop_ok T q r l s1) as [r0 Hr0];
    destruct (poll_loop T q r l s1) as [r1 s2] eqn:E end.
  cbn in Hr0. subst r1. injection H as -> _.
  destruct (poll_loop_outcome _ _ _ _ _ _ _ E) as [->|[->|[[t ->]| ->]]]; cbn;
    (split; [reflexivity|]).
  - split; [split; intros; [reflexivity | eexists; reflexivity]|]. reflexivity.
  - split; [split; intros; [reflexivity | eexists; reflexivity]|]. reflexivity.
  - split; [split; intros Hx; [destruct Hx; discriminate | discriminate]|].
    discriminate.
  - split; [split; intros; [reflexivity | eexists; reflexivity]|]. reflexivity.
Qed.

(* ------------------------------------------------------------------ *)
(** ** Runs of the further properties on concrete states *)

(** X4 on a sample: one request in the mailbox. *)
Lemma getPendingQuestions_spec_witness :
  let s := start_st ex_mb [] in
  mb_readdir_fails (st_mb s) = false /\
  fst (getPendingQuestions s) = Ok [JQuestion ex_q].
Proof.
  intros s.
  assert (H : mb_readdir_fails (st_mb s) = false) by (vm_compute; reflexivity).
  split; [exact H|].
  destruct (getPendingQuestions_spec s H) as [_ Hg].
  destruct (getPendingQuestions s) as [r s'].
  destruct Hg as [-> _]. vm_compute. reflexivity.
Defined.

(** X7 on a sample: a call with an empty mailbox. *)
Lemma execute_request_listed_witness :
  let s := start_st {| mb_dir := false; mb_files := ∅; mb_readdir_fails := false;
                       mb_write_fails := false |} [] in
  mb_write_fails (st_mb s) = false /\ mb_readdir_fails (st_mb s) = false /\
  fst (execute "q1" "Proceed?" None None "ses1" "msg1" [] s) = Ok None.
Proof.
  intros s.
  assert (H1 : mb_write_fails (st_mb s) = false) by (vm_compute; reflexivity).
  assert (H2 : mb_readdir_fails (st_mb s) = false) by (vm_compute; reflexivity).
  split; [exact H1|]. split; [exact H2|].
  pose proof (execute_request_listed "q1" "Proceed?" None None "ses1" "msg1" s H1 H2) as H.
  cbn zeta in H.
  destruct (execute "q1" "Proceed?" None None "ses1" "msg1" [] s) as [r s'].
  destruct H as [-> _]. reflexivity.
Defined.

(** X8 on a sample: the reply is already there at the first tick. *)
Lemma execute_cleans_up_witness :
  let s := start_st {| mb_dir := true;
                       mb_files := {[ response_file "q1" := CDoc (JResponse ex_reply) ]};
                       mb_readdir_fails := false; mb_write_fails := false |} [] in
  let r := execute "q1" "Proceed?" None None "ses1" "msg1" [ex_wait_tick] s in
  r = (Ok (Some (answered_outcome "yes")), snd r) /\
  mb_files (st_mb (snd r)) !! question_file "q1" = None /\
  mb_files (st_mb (snd r)) !! response_file "q1" = None.
Proof.
  intros s r.
  assert (H : r = (Ok (Some (answered_outcome "yes")), snd r)) by (vm_compute; reflexivity).
  split; [exact H|].
  destruct (execute_cleans_up "q1" "Proceed?" None None "ses1" "msg1" [ex_wait_tick]
              s (snd r) (answered_outcome "yes") H) as [Hq Hr].
  split; [exact Hq | apply Hr; left; reflexivity].
Defined.

(** X9 on a sample: the reply arrives after one idle tick, and the next tick
    runs exactly at the default deadline or just past it. *)
Lemma execute_deadline_witness :
  let s := start_st ex_mb [] in
  let s1 := snd (execute "q1" "Proceed?" None None "ses1" "msg1" [ex_wait_tick] s) in
  execute "q1" "Proceed?" None None "ses1" "msg1" [ex_wait_tick] s = (Ok None, s1) /\
  te_aborted ex_deadline_reply_tick = false /\
  mb_files (te_other ex_deadline_reply_tick (st_mb s1)) !! response_file "q1" =
    Some (CDoc (JResponse ex_reply)) /\
  fst (execute "q1" "Proceed?" None None "ses1" "msg1"
         ([ex_wait_tick] ++ ex_deadline_reply_tick :: []) s) =
    Ok (Some (answered_outcome "yes")) /\
  te_aborted ex_late_reply_tick = false /\
  mb_files (te_other ex_late_reply_tick (st_mb s1)) !! response_file "q1" =
    Some (CDoc (JResponse ex_reply)) /\
  fst (execute "q1" "Proceed?" None None "ses1" "msg1"
         ([ex_wait_tick] ++ ex_late_reply_tick :: []) s) =
    Ok (Some (timeout_outcome 300)).
Proof.
  intros s s1.
  assert (H1 : execute "q1" "Proceed?" None None "ses1" "msg1" [ex_wait_tick] s
               = (Ok None, s1)) by (vm_compute; reflexivity).
  assert (H2 : te_aborted ex_deadline_reply_tick = false) by reflexivity.
  assert (H3 : mb_files (te_other ex_deadline_reply_tick (st_mb s1)) !! response_file "q1" =
               Some (CDoc (JResponse ex_reply))) by (vm_compute; reflexivity).
  assert (H4 : te_aborted ex_late_reply_tick = false) by reflexivity.
  assert (H5 : mb_files (te_other ex_late_reply_tick (st_mb s1)) !! response_file "q1" =
               Some (CDoc (JResponse ex_reply))) by (vm_compute; reflexivity).
  split; [exact H1|]. split; [exact H2|]. split; [exact H3|]. split.
  { rewrite (execute_deadline "q1" "Proceed?" None None "ses1" "msg1" [ex_wait_tick] []
               ex_deadline_reply_tick s s1 (JResponse ex_reply) H1 H2 H3).
    rewrite bool_decide_false by (cbn; lia). reflexivity. }
  split; [exact H4|]. split; [exact H5|].
  rewrite (execute_deadline "q1" "Proceed?" None None "ses1" "msg1" [ex_wait_tick] []
             ex_late_reply_tick s s1 (JResponse ex_reply) H1 H4 H5).
  rewrite bool_decide_true by (cbn; lia). reflexivity.
Defined.

(** X12 on a sample: the call is aborted at its first tick. *)
Lemma execute_outcome_shape_witness :
  let s := start_st ex_mb [] in
  let r := execute "q2" "Proceed?" None None "ses1" "msg1" [ex_abort_tick] s in
  r = (Ok (Some aborted_outcome), snd r) /\
  o_responded aborted_outcome = negb (o_cancelled aborted_outcome).
Proof.
  intros s r.
  assert (H : r = (Ok (Some aborted_outcome), snd r)) by (vm_compute; reflexivity).
  split; [exact H|].
  exact (proj1 (execute_outcome_shape "q2" "Proceed?" None None "ses1" "msg1"
                  [ex_abort_tick] s (snd r) aborted_outcome H)).
Defined.
